(** * missing-translation.py: translation audit of locale files and templates

    A shallow embedding of [find_missing_translations]
    (src/missing-translation.py) and the properties of its three result
    collections and three totals.

    Modelling choices.
    - Python [str] values are [string]s; a character is a code point below
      256, which is enough for every delimiter the program looks at.
    - Python [set]s are [gset string], [dict]s are [gmap string _].  The
      iteration order of a Python set is unspecified; where the program
      iterates over a set the model iterates over [elements], and no
      statement below depends on that order.
    - The file system and the directory walk are read-only collaborators,
      gathered in the record [World].  [json.load] and [open(...).read()]
      are library code: the world gives their outcome (a parsed value, a
      text, or the exception raised).
    - Exceptions are explicit: a run either returns a report or raises. *)

From Stdlib Require Import Ascii String.
From stdpp Require Import gmap strings list fin_maps fin_sets pretty.


Local Open Scope string_scope.

(** ** Characters and strings as Python sees them *)

Module Py.

(** [c.isspace()] on code points below 256; it is also what [\s] matches in
    a [str] pattern and what [str.strip()] removes. *)
Definition isspace (c : ascii) : bool :=
  let n := nat_of_ascii c in
  ((9 <=? n)%nat && (n <=? 13)%nat) || ((28 <=? n)%nat && (n <=? 32)%nat)
  || (n =? 133)%nat || (n =? 160)%nat.

(** [c in s] for a one-character [c]. *)
Fixpoint contains (c : ascii) (s : string) : bool :=
  match s with
  | EmptyString => false
  | String a r => Ascii.eqb a c || contains c r
  end.

(** [s.startswith(p)] *)
Fixpoint startswith (p s : string) : bool :=
  match p, s with
  | EmptyString, _ => true
  | String a p', String b s' => Ascii.eqb a b && startswith p' s'
  | String _ _, EmptyString => false
  end.

(** [s.endswith(suf)]: some suffix of [s] is [suf]. *)
Fixpoint endswith (s suf : string) : bool :=
  String.eqb s suf ||
  match s with
  | EmptyString => false
  | String _ r => endswith r suf
  end.

(** [s.lstrip()], [s.rstrip()] and [s.strip()] *)
Fixpoint lstrip (s : string) : string :=
  match s with
  | EmptyString => EmptyString
  | String c r => if isspace c then lstrip r else s
  end.

Fixpoint rstrip (s : string) : string :=
  match s with
  | EmptyString => EmptyString
  | String c r =>
      match rstrip r with
      | EmptyString => if isspace c then EmptyString else String c EmptyString
      | r' => String c r'
      end
  end.

Definition strip (s : string) : string := rstrip (lstrip s).

(** Truthiness of a [str]. *)
Definition truthy (s : string) : bool :=
  match s with EmptyString => false | _ => true end.

(** [os.path.join(a, b)] on POSIX, for two components. *)
Definition path_join (a b : string) : string :=
  if startswith "/" b then b
  else if String.eqb a "" || endswith a "/" then a ++ b
  else a ++ "/" ++ b.

End Py.

(** ** The two patterns of the template scanner *)

Module Re.

(** [re.findall] for a pattern that cannot match the empty string:
    [match_at s] tries the pattern at the head of [s] and gives the captured
    group and the length of the whole match.  The scan goes left to right;
    after a match it resumes behind the match, otherwise one character
    further.  [skip] counts the characters of the last match still to be
    passed over. *)
Fixpoint findall_from (match_at : string → option (string * nat))
    (skip : nat) (s : string) : list string :=
  match s with
  | EmptyString => []
  | String _ r =>
      match skip with
      | S k => findall_from match_at k r
      | O =>
          match match_at s with
          | Some (g, n) => g :: findall_from match_at (pred n) r
          | None => findall_from match_at 0 r
          end
      end
  end.

Definition findall (match_at : string → option (string * nat)) (s : string)
  : list string := findall_from match_at 0 s.

(** The class [[^<>{{\[]]: anything but [<], [>], [{] and [[]. *)
Definition static_class (c : ascii) : bool :=
  negb (Ascii.eqb c "<" || Ascii.eqb c ">" || Ascii.eqb c "{"
        || Ascii.eqb c "[")%char.

(** [([^<>{{\[]*?)<]: the lazy star first tries to stop at a [<] and
    otherwise takes one more character of the class. *)
Fixpoint static_group (s : string) : option (string * nat) :=
  match s with
  | EmptyString => None
  | String c r =>
      if Ascii.eqb c "<"%char then Some (EmptyString, 1)
      else if static_class c then
        match static_group r with
        | Some (g, n) => Some (String c g, S n)
        | None => None
        end
      else None
  end.

(** [>([^<>{{\[]*?)<] at the head of [s]. *)
Definition static_at (s : string) : option (string * nat) :=
  match s with
  | String c r =>
      if Ascii.eqb c ">"%char then
        match static_group r with
        | Some (g, n) => Some (g, S n)
        | None => None
        end
      else None
  | EmptyString => None
  end.

(** [\s*]: greedy; gives the rest and the number of characters taken.  No
    later part of the pattern starts with a blank, so giving characters
    back never helps. *)
Fixpoint spaces (s : string) : string * nat :=
  match s with
  | String c r =>
      if Py.isspace c then let '(t, n) := spaces r in (t, S n) else (s, 0)
  | EmptyString => (s, 0)
  end.

(** [[^']*] greedy up to the closing quote: the run, the rest behind the
    quote, and the characters taken including the quote. *)
Fixpoint quoted (s : string) : option (string * string * nat) :=
  match s with
  | EmptyString => None
  | String c r =>
      if Ascii.eqb c "'"%char then Some (EmptyString, r, 1)
      else
        match quoted r with
        | Some (g, t, n) => Some (String c g, t, S n)
        | None => None
        end
  end.

(** A literal at the head of [s]: the rest and the characters taken. *)
Fixpoint lit (p s : string) : option (string * nat) :=
  match p with
  | EmptyString => Some (s, 0)
  | String a p' =>
      match s with
      | String b s' =>
          if Ascii.eqb a b then
            match lit p' s' with
            | Some (t, n) => Some (t, S n)
            | None => None
            end
          else None
      | EmptyString => None
      end
  end.

(** [{{\s*'([^']+)'\s*\|\s*transloco\s*}}] at the head of [s]. *)
Definition transloco_at (s : string) : option (string * nat) :=
  '(s1, n1) ← lit "{{" s;
  let '(s2, n2) := spaces s1 in
  '(s3, n3) ← lit "'" s2;
  '(g, s4, n4) ← quoted s3;
  if Py.truthy g then
    let '(s5, n5) := spaces s4 in
    '(s6, n6) ← lit "|" s5;
    let '(s7, n7) := spaces s6 in
    '(s8, n8) ← lit "transloco" s7;
    let '(s9, n9) := spaces s8 in
    '(_, n10) ← lit "}}" s9;
    Some (g, n1 + n2 + n3 + n4 + n5 + n6 + n7 + n8 + n9 + n10)
  else None.

End Re.

(** ** Exceptions, parsed locale files and the outside world *)

Inductive exn :=
  | FileNotFoundError
  | JSONDecodeError
  | UnicodeDecodeError
  | AttributeError
  | OSError.

Inductive result (A : Type) :=
  | Ok (a : A)
  | Raise (e : exn).
Arguments Ok {A} a.
Arguments Raise {A} e.

(** Sequencing: an exception passes through the rest of the block. *)
Instance result_bind : MBind result := λ A B k r,
  match r with
  | Ok a => k a
  | Raise e => Raise e
  end.

(** A [for] loop whose body may raise. *)
Fixpoint foldM {A B} (f : B → A → result B) (b : B) (l : list A) : result B :=
  match l with
  | [] => Ok b
  | x :: l' => b' ← f b x; foldM f b' l'
  end.

(** What [json.load] returns. *)
#[warnings="-register-all"] Inductive json :=
  | JNull
  | JBool (b : bool)
  | JNumber (literal : string)
  | JString (s : string)
  | JArray (l : list json)
  | JObject (d : list (string * json)).

(** [set(translations.keys())]; only a [dict] has [keys]. *)
Definition keys_of (translations : json) : result (gset string) :=
  match translations with
  | JObject d => Ok (list_to_set d.*1)
  | _ => Raise AttributeError
  end.

Record World := {
  (** [with open(file, 'r', encoding='utf-8') as f: json.load(f)] *)
  json_load : string → result json;
  (** [with open(filepath, 'r', encoding='utf-8') as f: f.read()] *)
  read_text : string → result string;
  (** [os.walk(root_dir)]: the triples (root, dirs, files) in walk order *)
  os_walk : string → list (string * list string * list string)
}.

(** ** The report *)

Record report := {
  missing_keys_en : gmap string (list string);
  missing_translations_html : gmap string (list string);
  missing_transloco_keys : gmap string (list string);
  total_missing_static : nat;
  total_missing_transloco : nat;
  total_missing_keys_en : nat
}.

(** [return {}, {}, {}, 0, 0, 0] *)
Definition empty_report : report :=
  {| missing_keys_en := ∅; missing_translations_html := ∅;
     missing_transloco_keys := ∅; total_missing_static := 0;
     total_missing_transloco := 0; total_missing_keys_en := 0 |}.

(** ** Part 1: keys missing compared to the reference file *)

Definition no_dot (key : string) : Prop := Py.contains "." key = false.

Instance no_dot_dec key : Decision (no_dot key).
Proof. unfold no_dot. apply _. Defined.

(** Lines 56 to 59: both key sets are filtered, then subtracted. *)
Definition diff_missing (en_keys keys : gset string) : gset string :=
  let en_keys_filtered := filter no_dot en_keys in
  let keys_filtered := filter no_dot keys in
  en_keys_filtered ∖ keys_filtered.

Definition load_keys (w : World) (file : string) : result (gset string) :=
  translations ← json_load w file; keys_of translations.

(** One round of the loop of lines 42 to 62; the state is
    [(missing_keys_en, total_missing_keys_en)]. *)
Definition diff_file (w : World) (en_file : string) (en_keys : gset string)
    (st : gmap string (list string) * nat) (file : string)
  : result (gmap string (list string) * nat) :=
  if bool_decide (file ≠ en_file) then
    match load_keys w file with
    | Raise FileNotFoundError => Ok st
    | Raise JSONDecodeError => Ok st
    | Raise e => Raise e
    | Ok keys =>
        let missing := diff_missing en_keys keys in
        if bool_decide (missing ≠ ∅) then
          Ok (<[file := elements missing]> st.1, st.2 + size missing)
        else Ok st
    end
  else Ok st.

(** ** Part 2: the key sets the classifier knows *)

(** One round of the loop of lines 68 to 77. *)
Definition add_translations (w : World) (en_file : string)
    (all_translations : gmap string (gset string)) (file : string)
  : result (gmap string (gset string)) :=
  if bool_decide (file ≠ en_file) then
    match load_keys w file with
    | Raise FileNotFoundError => Ok all_translations
    | Raise JSONDecodeError => Ok all_translations
    | Raise e => Raise e
    | Ok keys => Ok (<[file := keys]> all_translations)
    end
  else Ok all_translations.

(** Lines 103 to 107 and 121 to 125: the key is in some known key set. *)
Definition is_translated (all_translations : gmap string (gset string))
    (key : string) : bool :=
  existsb (λ item : string * gset string, bool_decide (key ∈ item.2))
          (map_to_list all_translations).

(** Lines 110 to 112 and 128 to 130: append the file to the key's bucket. *)
Definition append_origin (key filepath : string)
    (missing : gmap string (list string)) : gmap string (list string) :=
  let missing := if bool_decide (missing !! key = None)
                 then <[key := []]> missing else missing in
  <[key := (default [] (missing !! key) ++ [filepath])%list]> missing.

(** ** Part 3: the template scan *)

Record scan_state := {
  st_html : gmap string (list string);
  st_transloco : gmap string (list string);
  st_static : nat;
  st_pipe : nat
}.

(** Body of the loop of lines 102 to 113. *)
Definition check_static (all_translations : gmap string (gset string))
    (filepath : string) (st : scan_state) (key : string) : scan_state :=
  let is_translated := is_translated all_translations key in
  if negb is_translated then
    {| st_html := append_origin key filepath (st_html st);
       st_transloco := st_transloco st;
       st_static := st_static st + 1;
       st_pipe := st_pipe st |}
  else st.

(** Body of the loop of lines 116 to 131. *)
Definition check_transloco (all_translations : gmap string (gset string))
    (filepath : string) (st : scan_state) (key : string) : scan_state :=
  if Py.contains "." key then st
  else
    let is_translated := is_translated all_translations key in
    if negb is_translated then
      {| st_html := st_html st;
         st_transloco := append_origin key filepath (st_transloco st);
         st_static := st_static st;
         st_pipe := st_pipe st + 1 |}
    else st.

(** Lines 94 and 95. *)
Definition static_text (content : string) : gset string :=
  let static_text_matches := Re.findall Re.static_at content in
  list_to_set
    (Py.strip <$>
       filter (λ text, Py.truthy (Py.strip text) = true) static_text_matches).

(** Lines 98 and 99. *)
Definition transloco_keys (content : string) : gset string :=
  let transloco_matches := Re.findall Re.transloco_at content in
  list_to_set transloco_matches.

(** Lines 93 to 131 for one file that was read. *)
Definition scan_content (all_translations : gmap string (gset string))
    (filepath content : string) (st : scan_state) : scan_state :=
  let st := foldl (check_static all_translations filepath) st
                  (elements (static_text content)) in
  foldl (check_transloco all_translations filepath) st
        (elements (transloco_keys content)).

Definition is_template (file : string) : bool :=
  Py.endswith file ".html" && negb (String.eqb file "index.html").

(** Body of the loop of line 83. *)
Definition scan_file (w : World) (all_translations : gmap string (gset string))
    (root : string) (st : scan_state) (file : string) : result scan_state :=
  if is_template file then
    let filepath := Py.path_join root file in
    match read_text w filepath with
    | Raise UnicodeDecodeError => Ok st
    | Raise e => Raise e
    | Ok content => Ok (scan_content all_translations filepath content st)
    end
  else Ok st.

(** Body of the loop of line 82. *)
Definition scan_dir (w : World) (all_translations : gmap string (gset string))
    (st : scan_state) (entry : string * list string * list string)
  : result scan_state :=
  let '(root, _, files) := entry in
  foldM (scan_file w all_translations root) st files.

Definition init_state : scan_state :=
  {| st_html := ∅; st_transloco := ∅; st_static := 0; st_pipe := 0 |}.

(** ** The whole run *)

Definition find_missing_translations (w : World) (root_dir : string)
    (translation_files : list string) (en_file : string) : result report :=
  match load_keys w en_file with
  | Raise FileNotFoundError => Ok empty_report
  | Raise JSONDecodeError => Ok empty_report
  | Raise e => Raise e
  | Ok en_keys =>
      part1 ← foldM (diff_file w en_file en_keys) (∅, 0) translation_files;
      all_translations ←
        foldM (add_translations w en_file) {[en_file := en_keys]}
              translation_files;
      st ← foldM (scan_dir w all_translations) init_state
                 (os_walk w root_dir);
      Ok {| missing_keys_en := part1.1;
            missing_translations_html := st_html st;
            missing_transloco_keys := st_transloco st;
            total_missing_static := st_static st;
            total_missing_transloco := st_pipe st;
            total_missing_keys_en := part1.2 |}
  end.

(** ** What the run prints *)

(** The lines printed so far, one string for each call of [print], and the
    outcome. *)
Definition out (A : Type) : Type := list string * result A.

(** A [for] loop whose body prints and may raise. *)
Fixpoint foldM_out {A B} (f : B → A → out B) (b : B) (l : list A) : out B :=
  match l with
  | [] => ([], Ok b)
  | x :: l' =>
      match f b x with
      | (lines, Ok b') =>
          let '(lines', r) := foldM_out f b' l' in ((lines ++ lines')%list, r)
      | (lines, Raise e) => (lines, Raise e)
      end
  end.

(** One round of the loop of lines 42 to 62, with lines 49 and 52. *)
Definition diff_file_out (w : World) (en_file : string)
    (en_keys : gset string) (st : gmap string (list string) * nat)
    (file : string) : out (gmap string (list string) * nat) :=
  if bool_decide (file ≠ en_file) then
    match load_keys w file with
    | Raise FileNotFoundError =>
        (["Error: Translation file not found: " ++ file], Ok st)
    | Raise JSONDecodeError =>
        (["Error: Invalid JSON format in: " ++ en_file], Ok st)
    | Raise e => ([], Raise e)
    | Ok keys =>
        let missing := diff_missing en_keys keys in
        if bool_decide (missing ≠ ∅) then
          ([], Ok (<[file := elements missing]> st.1, st.2 + size missing))
        else ([], Ok st)
    end
  else ([], Ok st).

(** Body of the loop of line 83, with line 90. *)
Definition scan_file_out (w : World)
    (all_translations : gmap string (gset string)) (root : string)
    (st : scan_state) (file : string) : out scan_state :=
  if is_template file then
    let filepath := Py.path_join root file in
    match read_text w filepath with
    | Raise UnicodeDecodeError =>
        (["Skipping file due to encoding error: " ++ filepath], Ok st)
    | Raise e => ([], Raise e)
    | Ok content => ([], Ok (scan_content all_translations filepath content st))
    end
  else ([], Ok st).

Definition scan_dir_out (w : World)
    (all_translations : gmap string (gset string)) (st : scan_state)
    (entry : string * list string * list string) : out scan_state :=
  let '(root, _, files) := entry in
  foldM_out (scan_file_out w all_translations root) st files.

(** The run with what it prints (lines 33, 36, 49, 52 and 90); the loop of
    lines 68 to 77 prints nothing. *)
Definition find_missing_translations_out (w : World) (root_dir : string)
    (translation_files : list string) (en_file : string) : out report :=
  match load_keys w en_file with
  | Raise FileNotFoundError =>
      (["Error: English translation file not found: " ++ en_file],
       Ok empty_report)
  | Raise JSONDecodeError =>
      (["Error: Invalid JSON format in: " ++ en_file], Ok empty_report)
  | Raise e => ([], Raise e)
  | Ok en_keys =>
      match foldM_out (diff_file_out w en_file en_keys) (∅, 0)
                      translation_files with
      | (lines1, Raise e) => (lines1, Raise e)
      | (lines1, Ok part1) =>
          match foldM (add_translations w en_file) {[en_file := en_keys]}
                      translation_files with
          | Raise e => (lines1, Raise e)
          | Ok all_translations =>
              match foldM_out (scan_dir_out w all_translations) init_state
                              (os_walk w root_dir) with
              | (lines3, Raise e) => ((lines1 ++ lines3)%list, Raise e)
              | (lines3, Ok st) =>
                  ((lines1 ++ lines3)%list,
                   Ok {| missing_keys_en := part1.1;
                         missing_translations_html := st_html st;
                         missing_transloco_keys := st_transloco st;
                         total_missing_static := st_static st;
                         total_missing_transloco := st_pipe st;
                         total_missing_keys_en := part1.2 |})
              end
          end
      end
  end.

(** ** The script (lines 136 to 191) *)

Definition root_directory : string := "./src".
Definition en_file_path : string := "./src/assets/i18n/datasources/en.json".
Definition translation_files_paths : list string :=
  [en_file_path;
   "./src/assets/i18n/datasources/de.json";
   "./src/assets/i18n/datasources/es.json";
   "./src/assets/i18n/datasources/fr.json"].

(** The line feed that opens some of the printed strings. *)
Definition nl : string := String "010"%char "".

(** One section of the output: the heading and, for every item of the
    mapping, its line and the lines of its list; or the line that says the
    mapping is empty.  A Python [dict] is walked in insertion order, which
    the mapping of the model does not keep: the items come in the order of
    [map_to_list]. *)
Definition print_section (heading nothing : string)
    (item_line entry_line : string → string)
    (m : gmap string (list string)) : list string :=
  if bool_decide (m ≠ ∅) then
    heading ::
    (map_to_list m ≫=
       λ item : string * list string,
         item_line item.1 :: (entry_line <$> item.2))
  else [nothing].

(** Lines 154 to 161, 163 to 170 and 172 to 179. *)
Definition print_keys_en (m : gmap string (list string)) : list string :=
  print_section
    "Missing Keys Compared to en.json (excluding object-like keys):"
    "No missing keys found compared to en.json (excluding object-like keys)."
    (λ file, "  " ++ file ++ ":") (λ key, "    - " ++ key) m.

Definition print_static (m : gmap string (list string)) : list string :=
  print_section
    (nl ++ "Missing Static Translations in HTML Files:")
    (nl ++ "No missing static translations found in HTML files.")
    (λ key, "  Key: " ++ key) (λ file, "    - " ++ file) m.

Definition print_transloco (m : gmap string (list string)) : list string :=
  print_section
    (nl ++ "Missing Word which is not in translation file and showing in HTML:")
    (nl ++ "No missing transloco pipe keys found in HTML files.")
    (λ key, "  Key: " ++ key) (λ file, "    - " ++ file) m.

(** Lines 181 to 186. *)
Definition print_summary (r : report) : list string :=
  [nl ++ "Summary:";
   "  Total missing static translations: "
     ++ pretty (total_missing_static r);
   "  Total missing Word which is not in translation file: "
     ++ pretty (total_missing_transloco r);
   "  Total missing keys in other translation files compared to en.json: "
     ++ pretty (total_missing_keys_en r);
   "Script completed successfully. Exit code: 0"].

(** Lines 154 to 186. *)
Definition print_report (r : report) : list string :=
  (print_keys_en (missing_keys_en r)
   ++ print_static (missing_translations_html r)
   ++ print_transloco (missing_transloco_keys r)
   ++ print_summary r)%list.

(** Lines 190 and 191; [text] is the text of the exception. *)
Definition print_failure (text : string) : list string :=
  ["An error occurred: " ++ text; "Script failed. Exit code: 1"].

(** The [__main__] block; [str_exn e] is the text of the exception. *)
Definition main (w : World) (str_exn : exn → string) : list string :=
  match find_missing_translations_out w root_directory
          translation_files_paths en_file_path with
  | (lines, Ok r) => (lines ++ print_report r)%list
  | (lines, Raise e) => (lines ++ print_failure (str_exn e))%list
  end.

(** ** A small world to run the program in *)

Module Demo.

Definition en : string := "i18n/en.json".
Definition de : string := "i18n/de.json".
Definition fr : string := "i18n/fr.json".

Definition home_html : string :=
  "<div>Welcome</div>{{ 'greeting' | transloco }}".
Definition nav_html : string :=
  "<p> nav.title </p><b>Welcome</b>{{'bye'|transloco}}{{ 'a.b' | transloco }}".

(** [en.json] and [de.json] load, [fr.json] does not exist. *)
Definition world : World :=
  {| json_load file :=
       if String.eqb file en then
         Ok (JObject [("greeting", JString "Hi"); ("nav.title", JString "T")])
       else if String.eqb file de then Ok (JObject [])
       else Raise FileNotFoundError;
     read_text path :=
       if String.eqb path "src/app/home.html" then Ok home_html
       else if String.eqb path "src/app/nav.html" then Ok nav_html
       else Raise OSError;
     os_walk root :=
       if String.eqb root "src" then
         [("src", ["app"], ["index.html"]);
          ("src/app", [], ["home.html"; "nav.html"; "style.css"])]
       else [] |}.

Definition files : list string := [en; de; fr].

Definition run (translation_files : list string) (en_file : string)
  : result report :=
  find_missing_translations world "src" translation_files en_file.

Definition report_of (r : result report) : report :=
  match r with
  | Ok r => r
  | Raise _ => empty_report
  end.

Definition report : report := Eval vm_compute in report_of (run files en).

Definition en_keys : gset string := list_to_set ["greeting"; "nav.title"].

End Demo.

(** * Vocabulary of the statements *)

Fixpoint all_chars (P : ascii → bool) (s : string) : bool :=
  match s with
  | EmptyString => true
  | String c r => P c && all_chars P r
  end.

(** The span holds none of the four characters the class rejects. *)
Definition plain_span (span : string) : Prop :=
  Py.contains "<" span = false ∧ Py.contains ">" span = false ∧
  Py.contains "{" span = false ∧ Py.contains "[" span = false.

(** [needle in s] for a string [needle]. *)
Fixpoint has_substring (needle s : string) : bool :=
  Py.startswith needle s ||
  match s with
  | EmptyString => false
  | String _ r => has_substring needle r
  end.

(** The extraction rule in the words of the specification: a span between
    a [>] and the next [<], dropped exactly when it holds a [{{] or a [[]. *)
Definition spec_span (content span : string) : Prop :=
  ∃ pre post, content = pre ++ String ">" (span ++ String "<" post) ∧
              Py.contains "<" span = false.

Definition spec_static_text (content token : string) : Prop :=
  ∃ span, spec_span content span ∧
          has_substring "{{" span = false ∧ Py.contains "[" span = false ∧
          Py.strip span = token ∧ token ≠ "".

Definition first_char (s : string) : option ascii :=
  match s with
  | EmptyString => None
  | String c _ => Some c
  end.

Fixpoint last_char (s : string) : option ascii :=
  match s with
  | EmptyString => None
  | String c EmptyString => Some c
  | String _ r => last_char r
  end.

(** [token] is [span] without its leading and trailing blanks. *)
Definition trimmed_of (span token : string) : Prop :=
  ∃ l r, span = l ++ token ++ r ∧
         all_chars Py.isspace l = true ∧ all_chars Py.isspace r = true ∧
         (∀ c, first_char token = Some c → Py.isspace c = false) ∧
         (∀ c, last_char token = Some c → Py.isspace c = false).

(** Sum of the lengths of the lists a mapping holds. *)
Definition sum_lengths (m : gmap string (list string)) : nat :=
  map_fold (λ _ l n, length l + n) 0 m.

(** What one entry of [translation_files] adds to [missing_keys_en]. *)
Definition diff_entry (w : World) (en_file : string) (en_keys : gset string)
    (file : string) : option (list string) :=
  if bool_decide (file ≠ en_file) then
    match load_keys w file with
    | Ok keys =>
        if bool_decide (diff_missing en_keys keys ≠ ∅)
        then Some (elements (diff_missing en_keys keys)) else None
    | Raise _ => None
    end
  else None.

(** [key] is a key of the reference file or of a listed file that loads. *)
Definition known (w : World) (translation_files : list string)
    (en_file key : string) : Prop :=
  ∃ file keys, (file = en_file ∨ file ∈ translation_files) ∧
               load_keys w file = Ok keys ∧ key ∈ keys.

Definition known_entry (w : World) (en_file file : string)
  : option (gset string) :=
  if bool_decide (file ≠ en_file) then
    match load_keys w file with
    | Ok keys => Some keys
    | Raise _ => None
    end
  else None.

(** The files the scan reads, with their text, in walk order. *)
Definition templates_in (w : World)
    (entry : string * list string * list string) : list (string * string) :=
  let '(root, _, files) := entry in
  file ← files;
  if is_template file then
    match read_text w (Py.path_join root file) with
    | Ok content => [(Py.path_join root file, content)]
    | Raise _ => []
    end
  else [].

Definition scanned (w : World) (root_dir : string) : list (string * string) :=
  os_walk w root_dir ≫= templates_in w.

Definition scan_one (all_translations : gmap string (gset string))
    (st : scan_state) (item : string * string) : scan_state :=
  scan_content all_translations item.1 item.2 st.

(** The counters agree with the buckets. *)
Definition consistent (st : scan_state) : Prop :=
  st_static st = sum_lengths (st_html st) ∧
  st_pipe st = sum_lengths (st_transloco st).

(** A static token of a file counts as missing. *)
Definition hit_static (all_translations : gmap string (gset string))
    (key content : string) : bool :=
  bool_decide (key ∈ static_text content)
  && negb (is_translated all_translations key).

(** A lookup token of a file counts as missing. *)
Definition hit_transloco (all_translations : gmap string (gset string))
    (key content : string) : bool :=
  bool_decide (key ∈ transloco_keys content)
  && negb (Py.contains "." key)
  && negb (is_translated all_translations key).

(** The files that hold [key] as a static token, as a lookup token. *)
Definition static_origins (w : World) (root_dir key : string) : list string :=
  (filter (λ item, key ∈ static_text item.2) (scanned w root_dir)).*1.

Definition transloco_origins (w : World) (root_dir key : string)
  : list string :=
  (filter (λ item, key ∈ transloco_keys item.2) (scanned w root_dir)).*1.

(** A listed file that loads or that lines 48 to 53 skip. *)
Definition locale_ok (w : World) (file : string) : bool :=
  match load_keys w file with
  | Ok _ => true
  | Raise FileNotFoundError => true
  | Raise JSONDecodeError => true
  | Raise _ => false
  end.

(** A template that is read or that lines 89 to 91 skip. *)
Definition template_ok (w : World) (path : string) : bool :=
  match read_text w path with
  | Ok _ => true
  | Raise UnicodeDecodeError => true
  | Raise _ => false
  end.

(** Every template of one entry of the walk is read or skipped. *)
Definition entry_ok (w : World) (entry : string * list string * list string)
  : Prop :=
  ∀ file, file ∈ entry.2 → is_template file = true →
          template_ok w (Py.path_join entry.1.1 file) = true.

(** A lookup expression with its blanks, followed by [post]. *)
Definition pipe_expr (ws1 key ws2 ws3 ws4 post : string) : string :=
  "{{" ++ (ws1 ++ String "'" (key ++ String "'" (ws2 ++ String "|"
    (ws3 ++ ("transloco" ++ (ws4 ++ ("}}" ++ post))))))).

(** The line that one listed file makes the loop of lines 42 to 62
    print. *)
Definition locale_warning (w : World) (en_file file : string) : list string :=
  if bool_decide (file ≠ en_file) then
    match load_keys w file with
    | Raise FileNotFoundError => ["Error: Translation file not found: " ++ file]
    | Raise JSONDecodeError => ["Error: Invalid JSON format in: " ++ en_file]
    | _ => []
    end
  else [].

(** The line that one file name of the walk makes the scan print. *)
Definition template_warning (w : World) (root file : string) : list string :=
  if is_template file then
    match read_text w (Py.path_join root file) with
    | Raise UnicodeDecodeError =>
        ["Skipping file due to encoding error: " ++ Py.path_join root file]
    | _ => []
    end
  else [].

Definition entry_warnings (w : World)
    (entry : string * list string * list string) : list string :=
  entry.2 ≫= template_warning w entry.1.1.

(** What the script prints after a run that found nothing. *)
Definition nothing_missing_lines : list string :=
  ["No missing keys found compared to en.json (excluding object-like keys).";
   nl ++ "No missing static translations found in HTML files.";
   nl ++ "No missing transloco pipe keys found in HTML files.";
   nl ++ "Summary:";
   "  Total missing static translations: 0";
   "  Total missing Word which is not in translation file: 0";
   "  Total missing keys in other translation files compared to en.json: 0";
   "Script completed successfully. Exit code: 0"].

(** Decide a closed statement by evaluation. *)
Ltac by_compute := apply (bool_decide_unpack _); vm_compute; exact I.

(** * Properties *)

(** ** Static text extraction (lines 94 and 95) *)

Lemma all_chars_plain span :
  all_chars Re.static_class span = true ↔ plain_span span.
Proof.
  unfold plain_span. induction span as [|c r IH]; simpl.
  - tauto.
  - rewrite andb_true_iff, IH. unfold Re.static_class.
    rewrite negb_true_iff, !orb_false_iff. tauto.
Qed.

Lemma static_group_sound s g n :
  Re.static_group s = Some (g, n) →
  ∃ post, s = g ++ String "<" post ∧ n = S (String.length g) ∧
          all_chars Re.static_class g = true.
Proof.
  revert g n. induction s as [|c r IH]; simpl; intros g n H; [done|].
  destruct (Ascii.eqb c "<") eqn:Hc.
  - apply Ascii.eqb_eq in Hc. subst c. inversion H; subst. by exists r.
  - destruct (Re.static_class c) eqn:Hk; [|done].
    destruct (Re.static_group r) as [[g' n']|] eqn:Hr; [|done].
    inversion H; subst. destruct (IH _ _ eq_refl) as (post & -> & -> & Hg).
    exists post. simpl. by rewrite Hk, Hg.
Qed.

Lemma static_group_complete g post :
  all_chars Re.static_class g = true →
  Re.static_group (g ++ String "<" post) = Some (g, S (String.length g)).
Proof.
  induction g as [|c r IH]; simpl; intros H; [done|].
  apply andb_true_iff in H as [Hc Hr]. rewrite Hc, (IH Hr).
  destruct (Ascii.eqb c "<") eqn:E; [|done].
  apply Ascii.eqb_eq in E. by subst c.
Qed.

(** A match never runs over a later [>]. *)
Lemma static_group_stops pre rest g n :
  Re.static_group (pre ++ String ">" rest) = Some (g, n) →
  (n ≤ String.length pre)%nat.
Proof.
  revert g n. induction pre as [|c r IH]; simpl; intros g n H; [done|].
  destruct (Ascii.eqb c "<"); [inversion H; lia|].
  destruct (Re.static_class c); [|done].
  destruct (Re.static_group (r ++ String ">" rest)) as [[g' n']|] eqn:Hr;
    [|done].
  inversion H; subst. specialize (IH _ _ eq_refl). lia.
Qed.

Lemma static_at_inv c r g n :
  Re.static_at (String c r) = Some (g, n) →
  c = ">"%char ∧ Re.static_group r = Some (g, pred n).
Proof.
  simpl. destruct (Ascii.eqb c ">") eqn:Hc; [|done].
  apply Ascii.eqb_eq in Hc.
  destruct (Re.static_group r) as [[g' n']|]; [|done].
  intros H. by inversion H; subst.
Qed.

Lemma findall_static_sound s skip x :
  x ∈ Re.findall_from Re.static_at skip s →
  ∃ pre post, s = pre ++ String ">" (x ++ String "<" post) ∧
              all_chars Re.static_class x = true.
Proof.
  revert skip. induction s as [|c r IH]; intros skip H.
  - by apply elem_of_nil in H.
  - assert (Hrec : ∀ k, x ∈ Re.findall_from Re.static_at k r →
      ∃ pre post, String c r = pre ++ String ">" (x ++ String "<" post) ∧
                  all_chars Re.static_class x = true).
    { intros k Hk. destruct (IH _ Hk) as (pre & post & -> & Hx).
      by exists (String c pre), post. }
    cbn [Re.findall_from] in H. destruct skip as [|k]; [|by eapply Hrec].
    destruct (Re.static_at (String c r)) as [[g n]|] eqn:Hm;
      [|by eapply Hrec].
    apply elem_of_cons in H as [->|H]; [|by eapply Hrec].
    apply static_at_inv in Hm as [-> Hg].
    destruct (static_group_sound _ _ _ Hg) as (post & -> & _ & Hx).
    by exists "", post.
Qed.

Lemma findall_static_complete pre span post skip :
  (skip ≤ String.length pre)%nat →
  all_chars Re.static_class span = true →
  span ∈ Re.findall_from Re.static_at skip
           (pre ++ String ">" (span ++ String "<" post)).
Proof.
  intros Hskip Hspan. revert skip Hskip.
  induction pre as [|c r IH]; intros skip Hskip.
  - assert (skip = 0) as -> by (simpl in Hskip; lia).
    simpl.
    rewrite (static_group_complete _ _ Hspan). apply elem_of_cons. by left.
  - change (String c r ++ ?x) with (String c (r ++ x)).
    destruct skip as [|k]; cbn [Re.findall_from].
    + destruct (Re.static_at (String c _)) as [[g n]|] eqn:Hm;
        [|apply IH; lia].
      apply elem_of_cons. right. apply IH.
      apply static_at_inv in Hm as [_ Hg].
      by apply static_group_stops in Hg.
    + apply IH. simpl in Hskip. lia.
Qed.

Lemma elem_of_static_text content token :
  token ∈ static_text content ↔
  ∃ span, span ∈ Re.findall Re.static_at content ∧
          Py.strip span = token ∧ token ≠ "".
Proof.
  unfold static_text. rewrite elem_of_list_to_set, list_elem_of_fmap.
  split.
  - intros (span & -> & Hin). apply list_elem_of_filter in Hin as [Ht Hin].
    exists span. split_and!; [done..|]. intros E. by rewrite E in Ht.
  - intros (span & Hin & <- & Hne). exists span. split; [done|].
    apply list_elem_of_filter. split; [|done].
    by destruct (Py.strip span).
Qed.

(** *** What [strip] does *)

Lemma app_String a (s t : string) : String a s ++ t = String a (s ++ t).
Proof. done. Qed.

Lemma lstrip_decomp s :
  ∃ l, s = l ++ Py.lstrip s ∧ all_chars Py.isspace l = true ∧
       ∀ c, first_char (Py.lstrip s) = Some c → Py.isspace c = false.
Proof.
  induction s as [|a s (l & Hs & Hl & Hc)]; simpl.
  - by exists "".
  - destruct (Py.isspace a) eqn:Ha.
    + exists (String a l). simpl. rewrite Ha, Hl, app_String. by rewrite <-Hs.
    + exists "". split_and!; [done..|]. simpl. congruence.
Qed.

Lemma lstrip_blanks l s :
  all_chars Py.isspace l = true → Py.lstrip (l ++ s) = Py.lstrip s.
Proof.
  induction l as [|a l IH]; [done|]. rewrite app_String. simpl.
  intros [Ha Hl]%andb_true_iff. rewrite Ha. auto.
Qed.

Lemma lstrip_id s :
  (∀ c, first_char s = Some c → Py.isspace c = false) → Py.lstrip s = s.
Proof. destruct s as [|a s]; simpl; [done|]. intros H. by rewrite (H a). Qed.

Lemma rstrip_decomp s :
  ∃ r, s = Py.rstrip s ++ r ∧ all_chars Py.isspace r = true ∧
       ∀ c, last_char (Py.rstrip s) = Some c → Py.isspace c = false.
Proof.
  induction s as [|a s (r & Hs & Hr & Hc)]; simpl.
  - by exists "".
  - destruct (Py.rstrip s) as [|b t] eqn:Ht.
    + change (s = r) in Hs. subst r. destruct (Py.isspace a) eqn:Ha.
      * exists (String a s). simpl. by rewrite Ha, Hr.
      * exists s. split_and!; [done..|]. simpl. congruence.
    + exists r. split_and!; [|done..]. rewrite app_String. by rewrite <-Hs.
Qed.

Lemma rstrip_blanks s r :
  all_chars Py.isspace r = true → Py.rstrip (s ++ r) = Py.rstrip s.
Proof.
  intros Hr. induction s as [|a s IH].
  - change ("" ++ r) with r. induction r as [|b r IH]; simpl; [done|].
    simpl in Hr. apply andb_true_iff in Hr as [Hb Hr].
    by rewrite (IH Hr), Hb.
  - rewrite app_String. simpl. by rewrite IH.
Qed.

Lemma rstrip_id s :
  (∀ c, last_char s = Some c → Py.isspace c = false) → Py.rstrip s = s.
Proof.
  induction s as [|a s IH]; simpl; [done|]. intros H.
  destruct s as [|b t].
  - simpl. by rewrite (H a).
  - rewrite IH by done. done.
Qed.

Lemma first_char_rstrip s c :
  first_char (Py.rstrip s) = Some c → first_char s = Some c.
Proof.
  destruct s as [|a s]; simpl; [done|].
  destruct (Py.rstrip s); [|done]. by destruct (Py.isspace a).
Qed.

Lemma first_char_app s t :
  s ≠ "" → first_char (s ++ t) = first_char s.
Proof. by destruct s. Qed.

Lemma strip_trimmed span token :
  token ≠ "" → Py.strip span = token ↔ trimmed_of span token.
Proof.
  intros Hne. unfold Py.strip, trimmed_of. split.
  - intros <-.
    destruct (lstrip_decomp span) as (l & Hs & Hl & Hc).
    destruct (rstrip_decomp (Py.lstrip span)) as (r & Ht & Hr & Hd).
    exists l, r. split_and!; [by rewrite <-Ht|done..| |done].
    intros c Hfc. by apply Hc, first_char_rstrip.
  - intros (l & r & -> & Hl & Hr & Hc & Hd).
    rewrite lstrip_blanks by done.
    rewrite lstrip_id by (by rewrite first_char_app).
    rewrite rstrip_blanks by done. by apply rstrip_id.
Qed.

(** C2, as the code has it: static text extraction yields exactly the
    non-empty tokens obtained by trimming the blanks off a span that lies
    between a [>] and the following [<] and holds none of [<], [>], [{] and
    [[]; being a set, it holds each token once.  A single [{] already
    excludes a span. *)
Theorem static_text_spans content token :
  token ∈ static_text content ↔
  ∃ pre span post,
    content = pre ++ String ">" (span ++ String "<" post) ∧
    plain_span span ∧ trimmed_of span token ∧ token ≠ "".
Proof.
  rewrite elem_of_static_text. split.
  - intros (span & Hin & Hs & Hne).
    apply findall_static_sound in Hin as (pre & post & -> & Hx).
    exists pre, span, post. rewrite <-all_chars_plain.
    by rewrite <-strip_trimmed.
  - intros (pre & span & post & -> & Hp & Hs & Hne).
    exists span. split_and!; [| |done].
    + apply findall_static_complete; [simpl; lia|].
      by apply all_chars_plain.
    + by apply strip_trimmed.
Qed.

(** C2, as the specification words it, fails on [>a{b<]: the span [a{b]
    lies between a [>] and the next [<] and holds neither [{{] nor [[],
    yet the pattern does not match it. *)
Lemma static_text_single_brace :
  ¬ (∀ token, token ∈ static_text ">a{b<" ↔
              spec_static_text ">a{b<" token).
Proof.
  intros H. specialize (H "a{b").
  assert (Hspec : spec_static_text ">a{b<" "a{b").
  { exists "a{b". split_and!; try done. by exists "", "". }
  apply H in Hspec. by vm_compute in Hspec.
Qed.

(** ** Helpers for loops *)

Lemma foldM_cons {A B} (f : B → A → result B) b x l :
  foldM f b (x :: l) =
  match f b x with
  | Ok b' => foldM f b' l
  | Raise e => Raise e
  end.
Proof. done. Qed.

Lemma foldM_skip {A B} `{EqDecision A} (f : B → A → result B) (x : A) l :
  (∀ b, f b x = Ok b) →
  ∀ b, foldM f b l = foldM f b (filter (λ y, y ≠ x) l).
Proof.
  intros Hx. induction l as [|y l IH]; intros b; [done|].
  rewrite filter_cons. destruct (decide (y ≠ x)) as [Hne|Heq].
  - simpl. destruct (f b y); simpl; [apply IH|done].
  - apply dec_stable in Heq. subst y. simpl. rewrite Hx. apply IH.
Qed.

Lemma sum_lengths_empty : sum_lengths ∅ = 0.
Proof. apply map_fold_empty. Qed.

Lemma sum_lengths_insert_fresh k l (m : gmap string (list string)) :
  m !! k = None → sum_lengths (<[k := l]> m) = length l + sum_lengths m.
Proof.
  intros H. unfold sum_lengths.
  rewrite map_fold_insert_L; [done| |done]. intros. lia.
Qed.

Lemma sum_lengths_delete k (m : gmap string (list string)) :
  sum_lengths m = length (default [] (m !! k)) + sum_lengths (delete k m).
Proof.
  destruct (m !! k) as [l|] eqn:Hk; simpl.
  - rewrite <-(insert_delete_id m k l Hk) at 1.
    apply sum_lengths_insert_fresh, lookup_delete_eq.
  - by rewrite delete_id.
Qed.

Lemma sum_lengths_insert k l (m : gmap string (list string)) :
  sum_lengths (<[k := l]> m) + length (default [] (m !! k))
  = length l + sum_lengths m.
Proof.
  rewrite (sum_lengths_delete k m), <-(insert_delete_eq m).
  rewrite sum_lengths_insert_fresh by apply lookup_delete_eq. lia.
Qed.

(** Over a list without repetition that covers the keys of [m], summing
    the entries of the list is summing the mapping. *)
Lemma sum_lengths_NoDup (m : gmap string (list string)) (l : list string) :
  NoDup l → (∀ k, is_Some (m !! k) → k ∈ l) →
  sum_list ((λ k, length (default [] (m !! k))) <$> l) = sum_lengths m.
Proof.
  intros Hnd. revert m. induction Hnd as [|x l Hx Hnd IH]; intros m Hdom.
  - simpl. assert (m = ∅) as ->; [|by rewrite sum_lengths_empty].
    apply map_empty. intros k. apply eq_None_not_Some. intros Hk.
    by apply Hdom, elem_of_nil in Hk.
  - rewrite fmap_cons. simpl. rewrite (sum_lengths_delete x m). f_equal.
    rewrite <-(IH (delete x m)).
    + f_equal. apply list_fmap_ext. intros i k Hk.
      rewrite lookup_delete_ne; [done|]. intros ->.
      apply Hx. by eapply list_elem_of_lookup_2.
    + intros k [v Hk]. apply lookup_delete_Some in Hk as [Hne Hk].
      specialize (Hdom k (mk_is_Some _ _ Hk)).
      apply elem_of_cons in Hdom as [->|]; done.
Qed.

(** ** The reference file and the per-locale diff (lines 27 to 62) *)

Lemma elem_of_diff_missing (en_keys keys : gset string) key :
  key ∈ diff_missing en_keys keys ↔
  (key ∈ en_keys ∧ Py.contains "." key = false) ∧
  ¬ (key ∈ keys ∧ Py.contains "." key = false).
Proof.
  unfold diff_missing. rewrite elem_of_difference, !elem_of_filter.
  unfold no_dot. tauto.
Qed.

Lemma diff_file_Ok w en_file en_keys st file st' :
  diff_file w en_file en_keys st file = Ok st' →
  st' = match diff_entry w en_file en_keys file with
        | Some l => (<[file := l]> st.1, st.2 + length l)
        | None => st
        end.
Proof.
  unfold diff_file, diff_entry.
  destruct (bool_decide (file ≠ en_file)); [|congruence].
  destruct (load_keys w file) as [keys|[]]; try congruence.
  simpl. destruct (bool_decide (diff_missing en_keys keys ≠ ∅));
    by intros [= <-].
Qed.

Lemma diff_loop w en_file en_keys l st st' :
  foldM (diff_file w en_file en_keys) st l = Ok st' →
  (∀ file, st'.1 !! file =
           if bool_decide (file ∈ l)
           then match diff_entry w en_file en_keys file with
                | Some e => Some e
                | None => st.1 !! file
                end
           else st.1 !! file) ∧
  st'.2 = st.2 + sum_list ((λ file, length (default []
                     (diff_entry w en_file en_keys file))) <$> l).
Proof.
  revert st. induction l as [|x l IH]; intros st H.
  - inversion H; subst. split; [done|]. simpl. lia.
  - rewrite foldM_cons in H.
    destruct (diff_file w en_file en_keys st x) as [st1|] eqn:Hx; [|done].
    apply diff_file_Ok in Hx. destruct (IH _ H) as [Hm Ht].
    split.
    + intros file. rewrite Hm. clear Hm Ht.
      destruct (decide (file = x)) as [->|Hne].
      * rewrite (bool_decide_eq_true_2 (x ∈ x :: l))
          by (apply elem_of_cons; by left).
        subst st1. destruct (diff_entry w en_file en_keys x) as [e|]; simpl.
        -- rewrite lookup_insert_eq. by destruct (bool_decide (x ∈ l)).
        -- by destruct (bool_decide (x ∈ l)).
      * assert (st1.1 !! file = st.1 !! file) as ->.
        { subst st1. destruct (diff_entry w en_file en_keys x); [|done].
          simpl. by rewrite lookup_insert_ne. }
        apply (f_equal (λ b : bool, if b then _ else _)).
        apply bool_decide_ext. rewrite elem_of_cons. tauto.
    + rewrite Ht, fmap_cons. simpl. subst st1.
      destruct (diff_entry w en_file en_keys x); simpl; lia.
Qed.

(** The four ways a run ends with a report. *)
Lemma run_inv w root_dir translation_files en_file r :
  find_missing_translations w root_dir translation_files en_file = Ok r →
  ((load_keys w en_file = Raise FileNotFoundError ∨
    load_keys w en_file = Raise JSONDecodeError) ∧ r = empty_report) ∨
  ∃ en_keys part1 all_translations st,
    load_keys w en_file = Ok en_keys ∧
    foldM (diff_file w en_file en_keys) (∅, 0) translation_files = Ok part1 ∧
    foldM (add_translations w en_file) {[en_file := en_keys]}
          translation_files = Ok all_translations ∧
    foldM (scan_dir w all_translations) init_state (os_walk w root_dir)
      = Ok st ∧
    r = {| missing_keys_en := part1.1;
           missing_translations_html := st_html st;
           missing_transloco_keys := st_transloco st;
           total_missing_static := st_static st;
           total_missing_transloco := st_pipe st;
           total_missing_keys_en := part1.2 |}.
Proof.
  unfold find_missing_translations. intros H.
  destruct (load_keys w en_file) as [en_keys|e] eqn:Hen.
  - right.
    destruct (foldM (diff_file _ _ _) _ _) as [part1|] eqn:H1; [|done].
    simpl in H.
    destruct (foldM (add_translations _ _) _ _) as [all|] eqn:H2; [|done].
    simpl in H.
    destruct (foldM (scan_dir _ _) _ _) as [st|] eqn:H3; [|done].
    simpl in H. inversion H. by exists en_keys, part1, all, st.
  - left. destruct e; inversion H; auto.
Qed.

(** A reference file that holds JSON other than an object is not caught:
    [keys] does not exist on it. *)
Lemma reference_not_object_raises w root_dir translation_files en_file j :
  json_load w en_file = Ok j → (∀ d, j ≠ JObject d) →
  find_missing_translations w root_dir translation_files en_file
  = Raise AttributeError.
Proof.
  intros Hj Hno. unfold find_missing_translations, load_keys. rewrite Hj.
  destruct j; try done. by destruct (Hno d).
Qed.

(** Any other exception of the reference file reaches the caller. *)
Lemma reference_other_error_raises w root_dir translation_files en_file e :
  json_load w en_file = Raise e →
  e ≠ FileNotFoundError → e ≠ JSONDecodeError →
  find_missing_translations w root_dir translation_files en_file = Raise e.
Proof.
  intros He H1 H2. unfold find_missing_translations, load_keys. rewrite He.
  by destruct e.
Qed.

(** The entries of [missing_keys_en] in a report. *)
Lemma report_diff_entries w root_dir translation_files en_file r :
  find_missing_translations w root_dir translation_files en_file = Ok r →
  (∀ file l, missing_keys_en r !! file = Some l →
     file ∈ translation_files ∧ file ≠ en_file ∧
     ∃ en_keys keys,
       load_keys w en_file = Ok en_keys ∧ load_keys w file = Ok keys ∧
       diff_missing en_keys keys ≠ ∅ ∧
       l = elements (diff_missing en_keys keys)) ∧
  total_missing_keys_en r =
    sum_list ((λ file, length (default [] (missing_keys_en r !! file)))
                <$> translation_files).
Proof.
  intros H. apply run_inv in H as [[_ ->]|H].
  - split; [intros file l Hl; simpl in Hl; by rewrite lookup_empty in Hl|].
    simpl. induction translation_files as [|x l IH]; [done|].
    rewrite fmap_cons. simpl. by rewrite lookup_empty.
  - destruct H as (en_keys & part1 & all & st & Hen & H1 & _ & _ & ->).
    simpl. apply diff_loop in H1 as [Hm Ht]. simpl in Hm, Ht. split.
    + intros file l Hl. rewrite Hm in Hl.
      rewrite lookup_empty in Hl.
      destruct (bool_decide (file ∈ translation_files)) eqn:Hin; [|done].
      apply bool_decide_eq_true in Hin.
      unfold diff_entry in Hl.
      destruct (bool_decide (file ≠ en_file)) eqn:Hne; [|done].
      apply bool_decide_eq_true in Hne.
      destruct (load_keys w file) as [keys|] eqn:Hk; [|done].
      destruct (bool_decide (diff_missing en_keys keys ≠ ∅)) eqn:Hd; [|done].
      apply bool_decide_eq_true in Hd. inversion Hl; subst.
      split_and!; [done..|]. by exists en_keys, keys.
    + rewrite Ht. simpl. f_equal. apply list_fmap_ext. intros i file Hi.
      rewrite Hm, lookup_empty.
      rewrite bool_decide_eq_true_2 by (by eapply list_elem_of_lookup_2).
      by destruct (diff_entry w en_file en_keys file).
Qed.

(** ** The known key sets (lines 67 to 77) *)

Lemma is_translated_spec (all_translations : gmap string (gset string)) key :
  is_translated all_translations key = true ↔
  ∃ file keys, all_translations !! file = Some keys ∧ key ∈ keys.
Proof.
  unfold is_translated. rewrite existsb_exists. split.
  - intros ([file keys] & Hin & Hb). exists file, keys.
    apply list_elem_of_In, elem_of_map_to_list in Hin.
    by apply bool_decide_eq_true in Hb.
  - intros (file & keys & Hl & Hk). exists (file, keys). split.
    + by apply list_elem_of_In, elem_of_map_to_list.
    + by apply bool_decide_eq_true.
Qed.

Lemma add_translations_Ok w en_file all_translations file all' :
  add_translations w en_file all_translations file = Ok all' →
  all' = match known_entry w en_file file with
         | Some keys => <[file := keys]> all_translations
         | None => all_translations
         end.
Proof.
  unfold add_translations, known_entry.
  destruct (bool_decide (file ≠ en_file)); [|congruence].
  destruct (load_keys w file) as [keys|[]]; congruence.
Qed.

Lemma known_loop w en_file l (init all' : gmap string (gset string)) :
  foldM (add_translations w en_file) init l = Ok all' →
  ∀ file, all' !! file =
          if bool_decide (file ∈ l)
          then match known_entry w en_file file with
               | Some keys => Some keys
               | None => init !! file
               end
          else init !! file.
Proof.
  revert init. induction l as [|x l IH]; intros init H file.
  - by inversion H.
  - rewrite foldM_cons in H.
    destruct (add_translations w en_file init x) as [m1|] eqn:Hx; [|done].
    apply add_translations_Ok in Hx. rewrite (IH _ H).
    destruct (decide (file = x)) as [->|Hne].
    + rewrite (bool_decide_eq_true_2 (x ∈ x :: l))
        by (apply elem_of_cons; by left).
      subst m1. destruct (known_entry w en_file x) as [keys|].
      * rewrite lookup_insert_eq. by destruct (bool_decide (x ∈ l)).
      * by destruct (bool_decide (x ∈ l)).
    + assert (m1 !! file = init !! file) as ->.
      { subst m1. destruct (known_entry w en_file x); [|done].
        by rewrite lookup_insert_ne. }
      apply (f_equal (λ b : bool, if b then _ else _)).
      apply bool_decide_ext. rewrite elem_of_cons. tauto.
Qed.

Lemma known_sets w en_file en_keys translation_files all_translations :
  load_keys w en_file = Ok en_keys →
  foldM (add_translations w en_file) {[en_file := en_keys]}
        translation_files = Ok all_translations →
  ∀ key, is_translated all_translations key = true ↔
         known w translation_files en_file key.
Proof.
  intros Hen H key. rewrite is_translated_spec. unfold known.
  pose proof (known_loop _ _ _ _ _ H) as Hl.
  split; intros (file & keys & Hf & Hk); exists file, keys.
  - rewrite Hl in Hf. unfold known_entry in Hf.
    destruct (decide (file = en_file)) as [->|Hne].
    + rewrite (bool_decide_eq_false_2 (en_file ≠ en_file)) in Hf by tauto.
      rewrite lookup_singleton_eq in Hf.
      assert (Some en_keys = Some keys) as [= <-]
        by (by destruct (bool_decide _)).
      auto.
    + rewrite (bool_decide_eq_true_2 (file ≠ en_file)) in Hf by done.
      rewrite lookup_singleton_ne in Hf by done.
      destruct (bool_decide (file ∈ translation_files)) eqn:Hin; [|done].
      apply bool_decide_eq_true in Hin.
      destruct (load_keys w file) as [keys'|]; [|done].
      inversion Hf; subst. auto.
  - destruct Hk as [Hload Hkey]. split; [|done]. rewrite Hl.
    unfold known_entry. destruct (decide (file = en_file)) as [->|Hne].
    + rewrite (bool_decide_eq_false_2 (en_file ≠ en_file)) by tauto.
      rewrite lookup_singleton_eq.
      assert (keys = en_keys) as -> by congruence.
      by destruct (bool_decide _).
    + rewrite (bool_decide_eq_true_2 (file ≠ en_file)) by done.
      destruct Hf as [?|Hin]; [done|].
      rewrite (bool_decide_eq_true_2 _ Hin). by rewrite Hload.
Qed.

(** ** The template scan (lines 82 to 131) *)

Local Open Scope list_scope.

Lemma scan_files_Ok w all_translations root dirs files st st' :
  foldM (scan_file w all_translations root) st files = Ok st' →
  st' = foldl (scan_one all_translations) st
              (templates_in w (root, dirs, files)).
Proof.
  revert st. induction files as [|file files IH]; intros st H.
  - by inversion H.
  - rewrite foldM_cons in H. unfold templates_in. rewrite bind_cons.
    rewrite foldl_app. unfold scan_file in H.
    destruct (is_template file).
    + destruct (read_text w (Py.path_join root file)) as [content|[]];
        try done; by apply IH in H.
    + by apply IH in H.
Qed.

Lemma scan_loop w all_translations walk st st' :
  foldM (scan_dir w all_translations) st walk = Ok st' →
  st' = foldl (scan_one all_translations) st (walk ≫= templates_in w).
Proof.
  revert st. induction walk as [|[[root dirs] files] walk IH]; intros st H.
  - by inversion H.
  - rewrite foldM_cons in H. rewrite bind_cons, foldl_app.
    destruct (scan_dir w all_translations st (root, dirs, files))
      as [st1|] eqn:H1; [|done].
    apply (scan_files_Ok _ _ _ dirs) in H1. subst st1. by apply IH in H.
Qed.

Lemma append_origin_insert key filepath (m : gmap string (list string)) :
  append_origin key filepath m
  = <[key := default [] (m !! key) ++ [filepath]]> m.
Proof.
  unfold append_origin. destruct (m !! key) as [l|] eqn:Hk.
  - by rewrite bool_decide_eq_false_2, Hk.
  - rewrite bool_decide_eq_true_2 by done.
    by rewrite lookup_insert_eq, insert_insert_eq.
Qed.

Lemma sum_lengths_append_origin key filepath m :
  sum_lengths (append_origin key filepath m) = S (sum_lengths m).
Proof.
  rewrite append_origin_insert.
  pose proof (sum_lengths_insert key
                (default [] (m !! key) ++ [filepath]) m) as H.
  rewrite length_app in H. simpl in H. lia.
Qed.

Lemma check_static_loop all_translations filepath l st :
  NoDup l →
  let st' := foldl (check_static all_translations filepath) st l in
  (∀ key, st_html st' !! key =
          if bool_decide (key ∈ l) && negb (is_translated all_translations key)
          then Some (default [] (st_html st !! key) ++ [filepath])
          else st_html st !! key) ∧
  st_transloco st' = st_transloco st ∧
  (consistent st → consistent st').
Proof.
  intros Hnd. revert st.
  induction Hnd as [|x l Hx Hnd IH]; intros st; [done|].
  simpl. destruct (IH (check_static all_translations filepath st x))
    as (Hm & Ht & Hc). split_and!.
  - intros key. rewrite Hm. unfold check_static.
    destruct (decide (key = x)) as [->|Hne].
    + rewrite (bool_decide_eq_false_2 (x ∈ l)) by done.
      rewrite (bool_decide_eq_true_2 (x ∈ x :: l))
        by (apply elem_of_cons; by left).
      simpl. destruct (is_translated all_translations x); simpl; [done|].
      by rewrite append_origin_insert, lookup_insert_eq.
    + assert (st_html (if negb (is_translated all_translations x)
        then {| st_html := append_origin x filepath (st_html st);
                st_transloco := st_transloco st;
                st_static := st_static st + 1;
                st_pipe := st_pipe st |}
        else st) !! key = st_html st !! key) as ->.
      { destruct (is_translated all_translations x); simpl; [done|].
        by rewrite append_origin_insert, lookup_insert_ne. }
      apply (f_equal (λ b : bool, if b && _ then _ else _)).
      apply bool_decide_ext. rewrite elem_of_cons. tauto.
  - rewrite Ht. unfold check_static.
    by destruct (is_translated all_translations x).
  - intros [H1 H2]. apply Hc. unfold check_static, consistent.
    destruct (is_translated all_translations x); simpl; [done|].
    rewrite sum_lengths_append_origin. split; [lia|done].
Qed.

Lemma check_transloco_loop all_translations filepath l st :
  NoDup l →
  let st' := foldl (check_transloco all_translations filepath) st l in
  (∀ key, st_transloco st' !! key =
          if bool_decide (key ∈ l) && negb (Py.contains "." key)
             && negb (is_translated all_translations key)
          then Some (default [] (st_transloco st !! key) ++ [filepath])
          else st_transloco st !! key) ∧
  st_html st' = st_html st ∧
  (consistent st → consistent st').
Proof.
  intros Hnd. revert st.
  induction Hnd as [|x l Hx Hnd IH]; intros st; [done|].
  simpl. destruct (IH (check_transloco all_translations filepath st x))
    as (Hm & Ht & Hc). split_and!.
  - intros key. rewrite Hm. unfold check_transloco.
    destruct (decide (key = x)) as [->|Hne].
    + rewrite (bool_decide_eq_false_2 (x ∈ l)) by done.
      rewrite (bool_decide_eq_true_2 (x ∈ x :: l))
        by (apply elem_of_cons; by left).
      simpl. destruct (Py.contains "." x); simpl; [done|].
      destruct (is_translated all_translations x); simpl; [done|].
      by rewrite append_origin_insert, lookup_insert_eq.
    + assert (st_transloco (if Py.contains "." x then st
        else if negb (is_translated all_translations x)
        then {| st_html := st_html st;
                st_transloco := append_origin x filepath (st_transloco st);
                st_static := st_static st;
                st_pipe := st_pipe st + 1 |}
        else st) !! key = st_transloco st !! key) as ->.
      { destruct (Py.contains "." x); [done|].
        destruct (is_translated all_translations x); simpl; [done|].
        by rewrite append_origin_insert, lookup_insert_ne. }
      apply (f_equal (λ b : bool, if b && _ && _ then _ else _)).
      apply bool_decide_ext. rewrite elem_of_cons. tauto.
  - rewrite Ht. unfold check_transloco. destruct (Py.contains "." x); [done|].
    by destruct (is_translated all_translations x).
  - intros [H1 H2]. apply Hc. unfold check_transloco, consistent.
    destruct (Py.contains "." x); [done|].
    destruct (is_translated all_translations x); simpl; [done|].
    rewrite sum_lengths_append_origin. split; [done|lia].
Qed.

Lemma scan_content_spec all_translations filepath content st :
  let st' := scan_content all_translations filepath content st in
  (∀ key, st_html st' !! key =
          if hit_static all_translations key content
          then Some (default [] (st_html st !! key) ++ [filepath])
          else st_html st !! key) ∧
  (∀ key, st_transloco st' !! key =
          if hit_transloco all_translations key content
          then Some (default [] (st_transloco st !! key) ++ [filepath])
          else st_transloco st !! key) ∧
  (consistent st → consistent st').
Proof.
  unfold scan_content.
  destruct (check_static_loop all_translations filepath
              (elements (static_text content)) st (NoDup_elements _))
    as (H1 & H2 & H3).
  destruct (check_transloco_loop all_translations filepath
              (elements (transloco_keys content))
              (foldl (check_static all_translations filepath) st
                     (elements (static_text content)))
              (NoDup_elements _)) as (H4 & H5 & H6).
  split_and!.
  - intros key. rewrite H5, H1. unfold hit_static.
    apply (f_equal (λ b : bool, if b && _ then _ else _)).
    apply bool_decide_ext, elem_of_elements.
  - intros key. rewrite H4, H2. unfold hit_transloco.
    apply (f_equal (λ b : bool, if b && _ && _ then _ else _)).
    apply bool_decide_ext, elem_of_elements.
  - auto.
Qed.

(** A bucket grows by the files that hit it, in scan order. *)
Lemma bucket_fold (get : scan_state → gmap string (list string))
    (hit : string → string → bool)
    (step : scan_state → string * string → scan_state) :
  (∀ st item key,
     get (step st item) !! key =
     if hit key item.2
     then Some (default [] (get st !! key) ++ [item.1])
     else get st !! key) →
  ∀ files st key,
    get (foldl step st files) !! key =
    match (filter (λ item, hit key item.2 = true) files).*1 with
    | [] => get st !! key
    | o => Some (default [] (get st !! key) ++ o)
    end.
Proof.
  intros Hstep. induction files as [|item files IH]; intros st key; [done|].
  simpl. rewrite IH, Hstep, filter_cons.
  destruct (decide (hit key item.2 = true)) as [Hh|Hh].
  - rewrite Hh, fmap_cons. simpl.
    destruct ((filter _ files).*1); simpl; by rewrite <-?app_assoc.
  - apply not_true_is_false in Hh. by rewrite Hh.
Qed.

Lemma consistent_fold all_translations files st :
  consistent st → consistent (foldl (scan_one all_translations) st files).
Proof.
  revert st. induction files as [|item files IH]; intros st H; [done|].
  simpl. apply IH. by apply scan_content_spec.
Qed.

Lemma missing_html_bucket w root_dir translation_files en_file r key bucket :
  find_missing_translations w root_dir translation_files en_file = Ok r →
  missing_translations_html r !! key = Some bucket →
  ¬ known w translation_files en_file key ∧
  bucket = static_origins w root_dir key ∧ bucket ≠ [].
Proof.
  intros H Hb. apply run_inv in H as [[_ ->]|H]; [done|].
  destruct H as (en_keys & part1 & all & st & Hen & _ & H2 & H3 & ->).
  simpl in Hb. apply scan_loop in H3. subst st.
  rewrite (bucket_fold st_html (hit_static all)) in Hb
    by (intros; apply scan_content_spec).
  fold (scanned w root_dir) in Hb. simpl in Hb.
  destruct ((filter _ (scanned w root_dir)).*1) as [|o os] eqn:Ho; [done|].
  rewrite lookup_empty in Hb. simpl in Hb.
  assert (Htr : is_translated all key = false).
  { assert (Hin : o ∈ (filter (λ item, hit_static all key item.2 = true)
                              (scanned w root_dir)).*1)
      by (rewrite Ho; apply elem_of_cons; by left).
    apply list_elem_of_fmap in Hin as (item & _ & Hin).
    apply list_elem_of_filter in Hin as [Hh _]. unfold hit_static in Hh.
    apply andb_true_iff in Hh as [_ Hh]. by apply negb_true_iff in Hh. }
  split_and!.
  - rewrite <-(known_sets _ _ _ _ _ Hen H2). by rewrite Htr.
  - inversion Hb; subst. rewrite <-Ho. unfold static_origins. f_equal.
    apply list_filter_iff. intros item. unfold hit_static.
    rewrite Htr, andb_true_r. apply bool_decide_eq_true.
  - by inversion Hb.
Qed.

Lemma missing_transloco_bucket w root_dir translation_files en_file r key
    bucket :
  find_missing_translations w root_dir translation_files en_file = Ok r →
  missing_transloco_keys r !! key = Some bucket →
  Py.contains "." key = false ∧
  ¬ known w translation_files en_file key ∧
  bucket = transloco_origins w root_dir key ∧ bucket ≠ [].
Proof.
  intros H Hb. apply run_inv in H as [[_ ->]|H]; [done|].
  destruct H as (en_keys & part1 & all & st & Hen & _ & H2 & H3 & ->).
  simpl in Hb. apply scan_loop in H3. subst st.
  rewrite (bucket_fold st_transloco (hit_transloco all)) in Hb
    by (intros; apply scan_content_spec).
  fold (scanned w root_dir) in Hb. simpl in Hb.
  destruct ((filter _ (scanned w root_dir)).*1) as [|o os] eqn:Ho; [done|].
  rewrite lookup_empty in Hb. simpl in Hb.
  assert (Htr : Py.contains "." key = false ∧ is_translated all key = false).
  { assert (Hin : o ∈ (filter (λ item, hit_transloco all key item.2 = true)
                              (scanned w root_dir)).*1)
      by (rewrite Ho; apply elem_of_cons; by left).
    apply list_elem_of_fmap in Hin as (item & _ & Hin).
    apply list_elem_of_filter in Hin as [Hh _]. unfold hit_transloco in Hh.
    apply andb_true_iff in Hh as [Hh Ht].
    apply andb_true_iff in Hh as [_ Hd].
    by rewrite negb_true_iff in Hd, Ht. }
  destruct Htr as [Hdot Htr]. split_and!; [done| | |].
  - rewrite <-(known_sets _ _ _ _ _ Hen H2). by rewrite Htr.
  - inversion Hb; subst. rewrite <-Ho. unfold transloco_origins. f_equal.
    apply list_filter_iff. intros item. unfold hit_transloco.
    rewrite Htr, Hdot, !andb_true_r. apply bool_decide_eq_true.
  - by inversion Hb.
Qed.

(** A token of a scanned file that no loaded file knows is reported. *)
Lemma missing_html_reported w root_dir translation_files en_file r en_keys
    item key :
  find_missing_translations w root_dir translation_files en_file = Ok r →
  load_keys w en_file = Ok en_keys →
  item ∈ scanned w root_dir → key ∈ static_text item.2 →
  ¬ known w translation_files en_file key →
  is_Some (missing_translations_html r !! key).
Proof.
  intros H Hen Hitem Hkey Hk. apply run_inv in H as [[[?|?] _]|H];
    [congruence..|].
  destruct H as (en_keys' & part1 & all & st & Hen' & _ & H2 & H3 & ->).
  assert (en_keys' = en_keys) as -> by congruence.
  simpl. apply scan_loop in H3. subst st.
  rewrite (bucket_fold st_html (hit_static all))
    by (intros; apply scan_content_spec).
  fold (scanned w root_dir).
  destruct ((filter _ (scanned w root_dir)).*1) as [|o os] eqn:Ho; [|done].
  exfalso. apply fmap_nil_inv in Ho.
  assert (Hin : item ∈ filter (λ item, hit_static all key item.2 = true)
                         (scanned w root_dir)); [|by rewrite Ho in Hin;
                                                    apply elem_of_nil in Hin].
  apply list_elem_of_filter. split; [|done]. unfold hit_static.
  rewrite bool_decide_eq_true_2 by done. simpl. apply negb_true_iff.
  apply not_true_is_false. by rewrite (known_sets _ _ _ _ _ Hen H2).
Qed.

Lemma missing_transloco_reported w root_dir translation_files en_file r
    en_keys item key :
  find_missing_translations w root_dir translation_files en_file = Ok r →
  load_keys w en_file = Ok en_keys →
  item ∈ scanned w root_dir → key ∈ transloco_keys item.2 →
  Py.contains "." key = false →
  ¬ known w translation_files en_file key →
  is_Some (missing_transloco_keys r !! key).
Proof.
  intros H Hen Hitem Hkey Hdot Hk. apply run_inv in H as [[[?|?] _]|H];
    [congruence..|].
  destruct H as (en_keys' & part1 & all & st & Hen' & _ & H2 & H3 & ->).
  assert (en_keys' = en_keys) as -> by congruence.
  simpl. apply scan_loop in H3. subst st.
  rewrite (bucket_fold st_transloco (hit_transloco all))
    by (intros; apply scan_content_spec).
  fold (scanned w root_dir).
  destruct ((filter _ (scanned w root_dir)).*1) as [|o os] eqn:Ho; [|done].
  exfalso. apply fmap_nil_inv in Ho.
  assert (Hin : item ∈ filter (λ item, hit_transloco all key item.2 = true)
                         (scanned w root_dir)); [|by rewrite Ho in Hin;
                                                    apply elem_of_nil in Hin].
  apply list_elem_of_filter. split; [|done]. unfold hit_transloco.
  rewrite bool_decide_eq_true_2, Hdot by done. simpl. apply negb_true_iff.
  apply not_true_is_false. by rewrite (known_sets _ _ _ _ _ Hen H2).
Qed.

Lemma report_consistent w root_dir translation_files en_file r :
  find_missing_translations w root_dir translation_files en_file = Ok r →
  total_missing_static r = sum_lengths (missing_translations_html r) ∧
  total_missing_transloco r = sum_lengths (missing_transloco_keys r).
Proof.
  intros H. apply run_inv in H as [[_ ->]|H].
  - simpl. by rewrite sum_lengths_empty.
  - destruct H as (en_keys & part1 & all & st & _ & _ & _ & H3 & ->).
    simpl. apply scan_loop in H3. subst st.
    apply (consistent_fold all). split; simpl; by rewrite sum_lengths_empty.
Qed.

Lemma sum_list_zero {A} (f : A → nat) (l : list A) :
  sum_list (f <$> l) = 0 ↔ ∀ x, x ∈ l → f x = 0.
Proof.
  induction l as [|y l IH]; simpl.
  - split; [|done]. intros _ x Hx. by apply elem_of_nil in Hx.
  - rewrite Nat.eq_add_0, IH. split.
    + intros [Hy Hl] x [->|Hx]%elem_of_cons; auto.
    + intros Hall. split; [|intros x Hx]; apply Hall, elem_of_cons; auto.
Qed.

Lemma filter_ext_elem {A} (P Q : A → Prop) `{!∀ x, Decision (P x)}
    `{!∀ x, Decision (Q x)} (l : list A) :
  (∀ x, x ∈ l → P x ↔ Q x) → filter P l = filter Q l.
Proof.
  induction l as [|x l IH]; intros Hext; [done|].
  rewrite !filter_cons.
  rewrite IH by (intros y Hy; apply Hext, elem_of_cons; auto).
  assert (Hx : P x ↔ Q x) by (apply Hext, elem_of_cons; auto).
  destruct (decide (P x)), (decide (Q x)); tauto.
Qed.

Lemma filter_none {A} (P : A → Prop) `{!∀ x, Decision (P x)} (l : list A) :
  (∀ x, x ∈ l → ¬ P x) → filter P l = [].
Proof.
  induction l as [|x l IH]; intros Hno; [done|].
  rewrite filter_cons, decide_False by (apply Hno, elem_of_cons; auto).
  apply IH. intros y Hy. apply Hno, elem_of_cons. auto.
Qed.

(** *** The counters, one step for each missing token of each file *)

Lemma check_static_count all_translations filepath l st :
  let st' := foldl (check_static all_translations filepath) st l in
  st_static st'
  = st_static st
    + length (filter (λ key, is_translated all_translations key = false) l) ∧
  st_pipe st' = st_pipe st.
Proof.
  revert st. induction l as [|x l IH]; intros st; simpl; [split; [lia|done]|].
  destruct (IH (check_static all_translations filepath st x)) as [-> ->].
  rewrite filter_cons. unfold check_static.
  destruct (is_translated all_translations x) eqn:Hx; simpl;
    (split; [lia|done]).
Qed.

Lemma check_transloco_count all_translations filepath l st :
  let st' := foldl (check_transloco all_translations filepath) st l in
  st_pipe st'
  = st_pipe st
    + length (filter (λ key, Py.contains "." key = false ∧
                             is_translated all_translations key = false) l) ∧
  st_static st' = st_static st.
Proof.
  revert st. induction l as [|x l IH]; intros st; simpl; [split; [lia|done]|].
  destruct (IH (check_transloco all_translations filepath st x)) as [-> ->].
  unfold check_transloco.
  destruct (Py.contains "." x) eqn:Hd.
  { rewrite filter_cons, decide_False by (rewrite Hd; by intros [? _]).
    done. }
  destruct (is_translated all_translations x) eqn:Hx; simpl.
  - rewrite filter_cons, decide_False by (rewrite Hx; by intros [_ ?]).
    done.
  - rewrite filter_cons, decide_True by done. simpl. split; [lia|done].
Qed.

Lemma scan_fold_count all_translations items st :
  let st' := foldl (scan_one all_translations) st items in
  st_static st'
  = st_static st
    + sum_list ((λ item : string * string,
        length (filter (λ key, is_translated all_translations key = false)
                       (elements (static_text item.2)))) <$> items) ∧
  st_pipe st'
  = st_pipe st
    + sum_list ((λ item : string * string,
        length (filter (λ key, Py.contains "." key = false ∧
                               is_translated all_translations key = false)
                       (elements (transloco_keys item.2)))) <$> items).
Proof.
  revert st. induction items as [|item items IH]; intros st; simpl;
    [split; lia|].
  destruct (IH (scan_one all_translations st item)) as [-> ->].
  unfold scan_one, scan_content.
  destruct (check_transloco_count all_translations item.1
              (elements (transloco_keys item.2))
              (foldl (check_static all_translations item.1) st
                     (elements (static_text item.2)))) as [-> ->].
  destruct (check_static_count all_translations item.1
              (elements (static_text item.2)) st) as [-> ->].
  split; symmetry; apply Nat.add_assoc.
Qed.

(** Each total counts, file by file, the tokens of the file that are
    reported. *)
Lemma report_counts w root_dir translation_files en_file r :
  find_missing_translations w root_dir translation_files en_file = Ok r →
  total_missing_static r
  = sum_list ((λ item : string * string,
      length (filter (λ key, is_Some (missing_translations_html r !! key))
                     (elements (static_text item.2))))
              <$> scanned w root_dir) ∧
  total_missing_transloco r
  = sum_list ((λ item : string * string,
      length (filter (λ key, is_Some (missing_transloco_keys r !! key))
                     (elements (transloco_keys item.2))))
              <$> scanned w root_dir).
Proof.
  intros H.
  destruct (run_inv _ _ _ _ _ H)
    as [[_ ->]|(en_keys & part1 & all & st & Hen & _ & H2 & H3 & Hr)].
  - split; symmetry; apply sum_list_zero; intros item _;
      rewrite filter_none; [done| |done|];
      intros key _; simpl; rewrite lookup_empty; by intros [? ?].
  - assert (Hs : total_missing_static r = st_static st) by (by rewrite Hr).
    assert (Hp : total_missing_transloco r = st_pipe st) by (by rewrite Hr).
    rewrite Hs, Hp. apply scan_loop in H3.
    destruct (scan_fold_count all (scanned w root_dir) init_state)
      as [Hcs Hcp].
    fold (scanned w root_dir) in H3. rewrite <-H3 in Hcs, Hcp.
    rewrite Hcs, Hcp. simpl.
    pose proof (known_sets _ _ _ _ _ Hen H2) as Hknown.
    split; f_equal; apply list_fmap_ext; intros i item Hi;
      apply list_elem_of_lookup_2 in Hi; f_equal;
      apply filter_ext_elem; intros key Hkey%elem_of_elements.
    + split.
      * intros Hn. eapply missing_html_reported; [done..|].
        rewrite <-Hknown. by rewrite Hn.
      * intros [bucket Hb].
        destruct (missing_html_bucket _ _ _ _ _ _ _ H Hb) as (Hk & _).
        apply not_true_is_false. by rewrite Hknown.
    + split.
      * intros [Hd Hn]. eapply missing_transloco_reported; [done..|].
        rewrite <-Hknown. by rewrite Hn.
      * intros [bucket Hb].
        destruct (missing_transloco_bucket _ _ _ _ _ _ _ H Hb)
          as (Hd & Hk & _).
        split; [done|]. apply not_true_is_false. by rewrite Hknown.
Qed.

(** * The claims *)

(** C1, as the code has it: only the key sets of the per-locale diff
    exclude dotted keys.  The classifier tests a token against the full key
    sets: a static token of a scanned file is reported exactly when no
    loaded file has it as a key, dotted or not, and a lookup token is
    reported exactly when it has no dot and no loaded file has it as a
    key. *)
Theorem classifier_tests_full_key_sets w root_dir translation_files en_file r
    en_keys :
  find_missing_translations w root_dir translation_files en_file = Ok r →
  load_keys w en_file = Ok en_keys →
  (∀ file l key, missing_keys_en r !! file = Some l → key ∈ l →
                 Py.contains "." key = false) ∧
  (∀ item key, item ∈ scanned w root_dir → key ∈ static_text item.2 →
     (is_Some (missing_translations_html r !! key) ↔
      ¬ known w translation_files en_file key)) ∧
  (∀ item key, item ∈ scanned w root_dir → key ∈ transloco_keys item.2 →
     (is_Some (missing_transloco_keys r !! key) ↔
      Py.contains "." key = false ∧
      ¬ known w translation_files en_file key)).
Proof.
  intros H Hen. split_and!.
  - intros file l key Hl Hkey.
    destruct (report_diff_entries _ _ _ _ _ H) as [Hd _].
    destruct (Hd _ _ Hl) as (_ & _ & ek & keys & _ & _ & _ & ->).
    apply elem_of_elements, elem_of_diff_missing in Hkey. tauto.
  - intros item key Hitem Hkey. split.
    + intros [bucket Hb]. by eapply missing_html_bucket.
    + by eapply missing_html_reported.
  - intros item key Hitem Hkey. split.
    + intros [bucket Hb].
      destruct (missing_transloco_bucket _ _ _ _ _ _ _ H Hb) as (?&?&_).
      done.
    + intros [Hdot Hk]. by eapply missing_transloco_reported.
Qed.

Lemma classifier_tests_full_key_sets_demo :
  (∀ file l key, missing_keys_en Demo.report !! file = Some l → key ∈ l →
                 Py.contains "." key = false) ∧
  (∀ item key, item ∈ scanned Demo.world "src" → key ∈ static_text item.2 →
     (is_Some (missing_translations_html Demo.report !! key) ↔
      ¬ known Demo.world Demo.files Demo.en key)) ∧
  (∀ item key, item ∈ scanned Demo.world "src" →
     key ∈ transloco_keys item.2 →
     (is_Some (missing_transloco_keys Demo.report !! key) ↔
      Py.contains "." key = false ∧
      ¬ known Demo.world Demo.files Demo.en key)).
Proof.
  apply (classifier_tests_full_key_sets Demo.world "src" Demo.files Demo.en
           Demo.report Demo.en_keys).
  - vm_compute. reflexivity.
  - reflexivity.
Defined.

(** C1, as the specification words it, fails: [nav.title] is a static token
    of a scanned file and equals only a dotted key of the reference file,
    and the report does not list it. *)
Lemma dotted_key_counts_as_translated :
  ∃ r, Demo.run Demo.files Demo.en = Ok r ∧
       ("src/app/nav.html"%string, Demo.nav_html) ∈ scanned Demo.world "src" ∧
       "nav.title"%string ∈ static_text Demo.nav_html ∧
       Py.contains "." "nav.title" = true ∧
       missing_translations_html r !! "nav.title"%string = None.
Proof.
  exists Demo.report. split_and!.
  - vm_compute. reflexivity.
  - apply elem_of_cons. right. apply elem_of_cons. by left.
  - by_compute.
  - reflexivity.
  - vm_compute. reflexivity.
Qed.

(** C3: the per-locale diff is the reference keys without a dot minus the
    candidate keys without a dot; no key with a dot is ever in it. *)
Theorem diff_missing_flat (en_keys keys : gset string) :
  (∀ key, key ∈ diff_missing en_keys keys ↔
          (key ∈ en_keys ∧ Py.contains "." key = false) ∧
          ¬ (key ∈ keys ∧ Py.contains "." key = false)) ∧
  (∀ key, Py.contains "." key = true → key ∉ diff_missing en_keys keys).
Proof.
  split; intros key.
  - apply elem_of_diff_missing.
  - rewrite elem_of_diff_missing. intros Hd [[_ Hk] _]. congruence.
Qed.

(** C4, as the code has it: when opening the reference file raises
    [FileNotFoundError] or parsing it raises [JSONDecodeError], the run
    returns the report with three empty collections and three zero totals;
    it does not raise. *)
Theorem reference_failure_empty_report w root_dir translation_files en_file :
  json_load w en_file = Raise FileNotFoundError ∨
  json_load w en_file = Raise JSONDecodeError →
  ∃ r, find_missing_translations w root_dir translation_files en_file = Ok r ∧
       missing_keys_en r = ∅ ∧ missing_translations_html r = ∅ ∧
       missing_transloco_keys r = ∅ ∧ total_missing_static r = 0 ∧
       total_missing_transloco r = 0 ∧ total_missing_keys_en r = 0.
Proof.
  intros H. exists empty_report. split; [|done].
  unfold find_missing_translations, load_keys.
  by destruct H as [-> | ->].
Qed.

Lemma reference_failure_empty_report_demo :
  ∃ r, find_missing_translations Demo.world "src" Demo.files Demo.fr = Ok r ∧
       missing_keys_en r = ∅ ∧ missing_translations_html r = ∅ ∧
       missing_transloco_keys r = ∅ ∧ total_missing_static r = 0 ∧
       total_missing_transloco r = 0 ∧ total_missing_keys_en r = 0.
Proof.
  apply (reference_failure_empty_report Demo.world "src" Demo.files Demo.fr).
  left. reflexivity.
Defined.

(** C4, as the specification words it, fails for a reference file that
    is malformed in another way: a file that holds JSON other than an
    object, or bytes that are not UTF-8, makes the run raise. *)
Lemma malformed_reference_raises :
  find_missing_translations
    {| json_load _ := Ok (JArray []);
       read_text _ := Raise OSError;
       os_walk _ := [] |}
    "src" ["en.json"%string] "en.json" = Raise AttributeError ∧
  find_missing_translations
    {| json_load _ := Raise UnicodeDecodeError;
       read_text _ := Raise OSError;
       os_walk _ := [] |}
    "src" ["en.json"%string] "en.json" = Raise UnicodeDecodeError.
Proof. split; reflexivity. Qed.

(** C5: a token that is a key of the reference file or of any listed file
    that loads is never reported missing, neither as static text nor as a
    lookup key. *)
Theorem known_token_never_missing w root_dir translation_files en_file r
    file keys key :
  find_missing_translations w root_dir translation_files en_file = Ok r →
  file = en_file ∨ file ∈ translation_files →
  load_keys w file = Ok keys →
  key ∈ keys →
  missing_translations_html r !! key = None ∧
  missing_transloco_keys r !! key = None.
Proof.
  intros H Hf Hl Hk.
  assert (Hknown : known w translation_files en_file key)
    by (by exists file, keys).
  split.
  - destruct (missing_translations_html r !! key) as [b|] eqn:Hb; [|done].
    by destruct (missing_html_bucket _ _ _ _ _ _ _ H Hb).
  - destruct (missing_transloco_keys r !! key) as [b|] eqn:Hb; [|done].
    by destruct (missing_transloco_bucket _ _ _ _ _ _ _ H Hb) as (_&?&_).
Qed.

Lemma known_token_never_missing_demo :
  missing_translations_html Demo.report !! "greeting"%string = None ∧
  missing_transloco_keys Demo.report !! "greeting"%string = None.
Proof.
  apply (known_token_never_missing Demo.world "src" Demo.files Demo.en
           Demo.report Demo.en Demo.en_keys "greeting").
  - vm_compute. reflexivity.
  - left. reflexivity.
  - reflexivity.
  - by_compute.
Defined.

(** C6: a lookup token with a dot is never reported missing, whatever the
    locale files hold. *)
Theorem dotted_lookup_never_missing w root_dir translation_files en_file r
    key :
  find_missing_translations w root_dir translation_files en_file = Ok r →
  Py.contains "." key = true →
  missing_transloco_keys r !! key = None.
Proof.
  intros H Hdot.
  destruct (missing_transloco_keys r !! key) as [b|] eqn:Hb; [|done].
  destruct (missing_transloco_bucket _ _ _ _ _ _ _ H Hb) as (?&_).
  congruence.
Qed.

Lemma dotted_lookup_never_missing_demo :
  "a.b"%string ∈ transloco_keys Demo.nav_html ∧
  missing_transloco_keys Demo.report !! "a.b"%string = None.
Proof.
  split.
  - by_compute.
  - apply (dotted_lookup_never_missing Demo.world "src" Demo.files Demo.en
             Demo.report "a.b").
    + vm_compute. reflexivity.
    + reflexivity.
Defined.

(** C7: a token of a scanned template that no loaded file knows (and, for
    a lookup token, that has no dot) has a bucket, and the bucket of a
    reported token lists, in scan order, one entry for each scanned
    template file that holds the token: a token held by N files has N
    entries.  Each total counts, file by file, the reported tokens of the
    file, and so is the sum of the lengths of its buckets. *)
Theorem bucket_one_entry_per_file w root_dir translation_files en_file r :
  find_missing_translations w root_dir translation_files en_file = Ok r →
  (∀ key bucket, missing_translations_html r !! key = Some bucket →
     bucket = (filter (λ item, key ∈ static_text item.2)
                      (scanned w root_dir)).*1) ∧
  (∀ key bucket, missing_transloco_keys r !! key = Some bucket →
     bucket = (filter (λ item, key ∈ transloco_keys item.2)
                      (scanned w root_dir)).*1) ∧
  total_missing_static r = sum_lengths (missing_translations_html r) ∧
  total_missing_transloco r = sum_lengths (missing_transloco_keys r) ∧
  (∀ en_keys item key,
     load_keys w en_file = Ok en_keys →
     item ∈ scanned w root_dir → key ∈ static_text item.2 →
     ¬ known w translation_files en_file key →
     missing_translations_html r !! key
     = Some (filter (λ item, key ∈ static_text item.2)
                    (scanned w root_dir)).*1) ∧
  (∀ en_keys item key,
     load_keys w en_file = Ok en_keys →
     item ∈ scanned w root_dir → key ∈ transloco_keys item.2 →
     Py.contains "." key = false →
     ¬ known w translation_files en_file key →
     missing_transloco_keys r !! key
     = Some (filter (λ item, key ∈ transloco_keys item.2)
                    (scanned w root_dir)).*1) ∧
  total_missing_static r
  = sum_list ((λ item : string * string,
      length (filter (λ key, is_Some (missing_translations_html r !! key))
                     (elements (static_text item.2))))
              <$> scanned w root_dir) ∧
  total_missing_transloco r
  = sum_list ((λ item : string * string,
      length (filter (λ key, is_Some (missing_transloco_keys r !! key))
                     (elements (transloco_keys item.2))))
              <$> scanned w root_dir).
Proof.
  intros H. split_and!.
  - intros key bucket Hb.
    by destruct (missing_html_bucket _ _ _ _ _ _ _ H Hb) as (_&?&_).
  - intros key bucket Hb.
    by destruct (missing_transloco_bucket _ _ _ _ _ _ _ H Hb) as (_&_&?&_).
  - by apply report_consistent in H as [? _].
  - by apply report_consistent in H as [_ ?].
  - intros en_keys item key Hen Hitem Hkey Hk.
    destruct (missing_html_reported _ _ _ _ _ _ _ _ H Hen Hitem Hkey Hk)
      as [bucket Hb].
    rewrite Hb. f_equal.
    by destruct (missing_html_bucket _ _ _ _ _ _ _ H Hb) as (_&?&_).
  - intros en_keys item key Hen Hitem Hkey Hdot Hk.
    destruct (missing_transloco_reported _ _ _ _ _ _ _ _ H Hen Hitem Hkey
                Hdot Hk) as [bucket Hb].
    rewrite Hb. f_equal.
    by destruct (missing_transloco_bucket _ _ _ _ _ _ _ H Hb) as (_&_&?&_).
  - by apply report_counts in H as [? _].
  - by apply report_counts in H as [_ ?].
Qed.

Lemma bucket_one_entry_per_file_demo :
  (∀ key bucket,
     missing_translations_html Demo.report !! key = Some bucket →
     bucket = (filter (λ item, key ∈ static_text item.2)
                      (scanned Demo.world "src")).*1) ∧
  (∀ key bucket,
     missing_transloco_keys Demo.report !! key = Some bucket →
     bucket = (filter (λ item, key ∈ transloco_keys item.2)
                      (scanned Demo.world "src")).*1) ∧
  total_missing_static Demo.report
  = sum_lengths (missing_translations_html Demo.report) ∧
  total_missing_transloco Demo.report
  = sum_lengths (missing_transloco_keys Demo.report) ∧
  (∀ en_keys item key,
     load_keys Demo.world Demo.en = Ok en_keys →
     item ∈ scanned Demo.world "src" → key ∈ static_text item.2 →
     ¬ known Demo.world Demo.files Demo.en key →
     missing_translations_html Demo.report !! key
     = Some (filter (λ item, key ∈ static_text item.2)
                    (scanned Demo.world "src")).*1) ∧
  (∀ en_keys item key,
     load_keys Demo.world Demo.en = Ok en_keys →
     item ∈ scanned Demo.world "src" → key ∈ transloco_keys item.2 →
     Py.contains "." key = false →
     ¬ known Demo.world Demo.files Demo.en key →
     missing_transloco_keys Demo.report !! key
     = Some (filter (λ item, key ∈ transloco_keys item.2)
                    (scanned Demo.world "src")).*1) ∧
  total_missing_static Demo.report
  = sum_list ((λ item : string * string,
      length (filter (λ key,
                is_Some (missing_translations_html Demo.report !! key))
                     (elements (static_text item.2))))
              <$> scanned Demo.world "src") ∧
  total_missing_transloco Demo.report
  = sum_list ((λ item : string * string,
      length (filter (λ key,
                is_Some (missing_transloco_keys Demo.report !! key))
                     (elements (transloco_keys item.2))))
              <$> scanned Demo.world "src").
Proof.
  apply (bucket_one_entry_per_file Demo.world "src" Demo.files Demo.en
           Demo.report).
  vm_compute. reflexivity.
Defined.

(** C8, as the code has it: a listed file other than the reference whose
    opening raises [FileNotFoundError] or whose parsing raises
    [JSONDecodeError] does not stop the run: the run is the run without
    that file in the list, and the file has no entry in
    [missing_keys_en]. *)
Theorem broken_locale_is_skipped w root_dir translation_files en_file file :
  file ≠ en_file →
  json_load w file = Raise FileNotFoundError ∨
  json_load w file = Raise JSONDecodeError →
  find_missing_translations w root_dir translation_files en_file
  = find_missing_translations w root_dir
      (filter (λ f, f ≠ file) translation_files) en_file ∧
  ∀ r, find_missing_translations w root_dir translation_files en_file = Ok r →
       missing_keys_en r !! file = None.
Proof.
  intros Hne Hload.
  assert (Hk : load_keys w file = Raise FileNotFoundError ∨
               load_keys w file = Raise JSONDecodeError).
  { unfold load_keys. destruct Hload as [-> | ->]; auto. }
  split.
  - unfold find_missing_translations.
    destruct (load_keys w en_file) as [en_keys|e]; [|done].
    rewrite <-(foldM_skip (diff_file w en_file en_keys) file).
    + destruct (foldM (diff_file _ _ _) _ _) as [part1|]; [|done].
      simpl. rewrite <-(foldM_skip (add_translations w en_file) file); [done|].
      intros all. unfold add_translations.
      destruct (bool_decide (file ≠ en_file)); [|done].
      by destruct Hk as [-> | ->].
    + intros st. unfold diff_file.
      destruct (bool_decide (file ≠ en_file)); [|done].
      by destruct Hk as [-> | ->].
  - intros r H.
    destruct (missing_keys_en r !! file) as [l|] eqn:Hl; [|done].
    destruct (report_diff_entries _ _ _ _ _ H) as [Hd _].
    destruct (Hd _ _ Hl) as (_ & _ & ek & keys & _ & Hf & _).
    destruct Hk; congruence.
Qed.

Lemma broken_locale_is_skipped_demo :
  find_missing_translations Demo.world "src" Demo.files Demo.en
  = find_missing_translations Demo.world "src"
      (filter (λ f, f ≠ Demo.fr) Demo.files) Demo.en ∧
  ∀ r, find_missing_translations Demo.world "src" Demo.files Demo.en = Ok r →
       missing_keys_en r !! Demo.fr = None.
Proof.
  apply (broken_locale_is_skipped Demo.world "src" Demo.files Demo.en Demo.fr).
  - discriminate.
  - left. reflexivity.
Defined.

(** C8, as the specification words it, fails for a listed file that is
    malformed in another way: with [de.json] holding JSON other than an
    object, or [es.json] holding bytes that are not UTF-8, the run raises,
    while the run without that file returns a report. *)
Lemma malformed_locale_raises :
  let w := {| json_load file :=
                if String.eqb file "de.json" then Ok (JArray [])
                else if String.eqb file "es.json" then Raise UnicodeDecodeError
                else Ok (JObject []);
              read_text _ := Raise OSError;
              os_walk _ := [] |} in
  find_missing_translations w "src" ["en.json"; "de.json"]%string "en.json"
  = Raise AttributeError ∧
  find_missing_translations w "src" ["en.json"; "es.json"]%string "en.json"
  = Raise UnicodeDecodeError ∧
  find_missing_translations w "src" ["en.json"%string] "en.json"
  = Ok empty_report.
Proof. split_and!; reflexivity. Qed.

(** C9: a single template [<div>Welcome</div>{{ 'greeting' | transloco }}]
    and the reference file [{"greeting":"Hi"}] as the only locale give the
    static bucket [Welcome] with that file as its one origin, and no
    missing lookup key. *)
Theorem welcome_example w root_dir root dirs file en_file :
  is_template file = true →
  json_load w en_file = Ok (JObject [("greeting"%string, JString "Hi")]) →
  os_walk w root_dir = [(root, dirs, [file])] →
  read_text w (Py.path_join root file)
  = Ok "<div>Welcome</div>{{ 'greeting' | transloco }}"%string →
  ∃ r, find_missing_translations w root_dir [en_file] en_file = Ok r ∧
       missing_translations_html r
       = {[ "Welcome"%string := [Py.path_join root file] ]} ∧
       missing_transloco_keys r = ∅.
Proof.
  intros Htpl Hjson Hwalk Hread.
  set (keys := list_to_set ["greeting"%string] : gset string).
  assert (Hno : is_translated {[en_file := keys]} "Welcome" = false).
  { apply not_true_is_false. rewrite is_translated_spec.
    intros (f & ks & Hl & Hk). apply lookup_singleton_Some in Hl as [_ <-].
    apply (bool_decide_pack _) in Hk. by vm_compute in Hk. }
  assert (Hyes : is_translated {[en_file := keys]} "greeting" = true).
  { rewrite is_translated_spec. exists en_file, keys.
    split; [apply lookup_singleton_eq|by_compute]. }
  assert (Hs : elements (static_text
                 "<div>Welcome</div>{{ 'greeting' | transloco }}")
               = ["Welcome"%string]) by (vm_compute; reflexivity).
  assert (Ht : elements (transloco_keys
                 "<div>Welcome</div>{{ 'greeting' | transloco }}")
               = ["greeting"%string]) by (vm_compute; reflexivity).
  eexists. split.
  - assert (Hload : load_keys w en_file = Ok keys)
      by (unfold load_keys; by rewrite Hjson).
    unfold find_missing_translations. rewrite Hload, !foldM_cons.
    unfold diff_file, add_translations.
    rewrite (bool_decide_eq_false_2 (en_file ≠ en_file)) by tauto.
    cbn [foldM mbind result_bind]. rewrite Hwalk, foldM_cons.
    unfold scan_dir at 1. rewrite foldM_cons. unfold scan_file.
    rewrite Htpl, Hread. cbn [foldM mbind result_bind].
    unfold scan_content. rewrite Hs, Ht. cbn [foldl].
    unfold check_static, check_transloco. rewrite Hno, Hyes.
    cbn [negb Py.contains]. reflexivity.
  - simpl. split; [|done].
    by rewrite append_origin_insert, lookup_empty, insert_empty.
Qed.

Lemma welcome_example_demo :
  ∃ r, find_missing_translations
         {| json_load _ := Ok (JObject [("greeting"%string, JString "Hi")]);
            read_text _ := Ok Demo.home_html;
            os_walk _ := [("src"%string, [], ["home.html"%string])] |}
         "src" [Demo.en] Demo.en = Ok r ∧
       missing_translations_html r
       = {[ "Welcome"%string := [Py.path_join "src" "home.html"] ]} ∧
       missing_transloco_keys r = ∅.
Proof.
  apply (welcome_example _ "src" "src" [] "home.html" Demo.en);
    reflexivity.
Defined.

(** C10, as the code has it: every list in [missing_keys_en] is non-empty,
    and the total is the sum, over the entries of [translation_files] as
    listed, of the length of the entry's list (nothing for an entry without
    a list); when no path is listed twice this is the sum of the lengths of
    the lists of the mapping. *)
Theorem diff_total_counts_listed_files w root_dir translation_files en_file
    r :
  find_missing_translations w root_dir translation_files en_file = Ok r →
  (∀ file l, missing_keys_en r !! file = Some l → l ≠ []) ∧
  total_missing_keys_en r
  = sum_list ((λ file, length (default [] (missing_keys_en r !! file)))
                <$> translation_files) ∧
  (NoDup translation_files →
   total_missing_keys_en r = sum_lengths (missing_keys_en r)).
Proof.
  intros H. destruct (report_diff_entries _ _ _ _ _ H) as [Hd Ht].
  split_and!.
  - intros file l Hl.
    destruct (Hd _ _ Hl) as (_ & _ & ek & keys & _ & _ & Hne & ->).
    intros He. apply Hne. apply leibniz_equiv. by apply elements_empty_inv.
  - done.
  - intros Hnd. rewrite Ht. apply sum_lengths_NoDup; [done|].
    intros file [l Hl]. by destruct (Hd _ _ Hl) as (? & _).
Qed.

Lemma diff_total_counts_listed_files_demo :
  (∀ file l, missing_keys_en Demo.report !! file = Some l → l ≠ []) ∧
  total_missing_keys_en Demo.report
  = sum_list ((λ file, length (default []
                 (missing_keys_en Demo.report !! file))) <$> Demo.files) ∧
  (NoDup Demo.files →
   total_missing_keys_en Demo.report
   = sum_lengths (missing_keys_en Demo.report)).
Proof.
  apply (diff_total_counts_listed_files Demo.world "src" Demo.files Demo.en).
  vm_compute. reflexivity.
Defined.

(** C10, as stated, fails when a path is listed twice: [de.json] lacks one
    key and is listed twice, the total is 2 and the one list has length
    1. *)
Lemma diff_total_counts_repeats :
  ∃ r, Demo.run [Demo.en; Demo.de; Demo.de] Demo.en = Ok r ∧
       total_missing_keys_en r = 2 ∧
       sum_lengths (missing_keys_en r) = 1.
Proof.
  eexists. split; [vm_compute; reflexivity|].
  split; vm_compute; reflexivity.
Qed.

(** * Further properties of the run *)

(** ** The per-locale diff *)

(** X1: a locale lacks nothing exactly when it holds every reference key
    without a dot; in particular a key set lacks nothing of itself. *)
Theorem diff_missing_empty_iff (en_keys keys : gset string) :
  (diff_missing en_keys keys = ∅ ↔
   ∀ key, key ∈ en_keys → Py.contains "." key = false → key ∈ keys) ∧
  diff_missing keys keys = ∅.
Proof.
  assert (H : ∀ a b : gset string, diff_missing a b = ∅ ↔
    ∀ key, key ∈ a → Py.contains "." key = false → key ∈ b).
  { intros a b. split.
    - intros He key Ha Hd. destruct (decide (key ∈ b)) as [|Hn]; [done|].
      assert (Hin : key ∈ diff_missing a b)
        by (apply elem_of_diff_missing; tauto).
      rewrite He in Hin. by apply not_elem_of_empty in Hin.
    - intros Hall. apply leibniz_equiv, elem_of_equiv_empty. intros key Hin.
      apply elem_of_diff_missing in Hin as [[Ha Hd] Hn]. apply Hn. auto. }
  split; [apply H|]. apply H. auto.
Qed.

(** X2: in a run whose reference file loads, a path has a list in
    [missing_keys_en] exactly when it is listed, is not the reference
    path, loads, and lacks some reference key without a dot; its list holds
    those keys. *)
Theorem missing_keys_en_entry w root_dir translation_files en_file r en_keys
    file l :
  find_missing_translations w root_dir translation_files en_file = Ok r →
  load_keys w en_file = Ok en_keys →
  missing_keys_en r !! file = Some l ↔
  file ∈ translation_files ∧ file ≠ en_file ∧
  ∃ keys, load_keys w file = Ok keys ∧ diff_missing en_keys keys ≠ ∅ ∧
          l = elements (diff_missing en_keys keys).
Proof.
  intros H Hen. split.
  - intros Hl. destruct (report_diff_entries _ _ _ _ _ H) as [Hd _].
    destruct (Hd _ _ Hl) as (Hin & Hne & ek & keys & Hek & Hk & Hd' & ->).
    assert (ek = en_keys) as -> by congruence.
    split_and!; [done..|]. by exists keys.
  - intros (Hin & Hne & keys & Hk & Hd & ->).
    apply run_inv in H as [[[?|?] _]|H]; [congruence..|].
    destruct H as (ek & part1 & all & st & Hek & H1 & _ & _ & ->).
    assert (ek = en_keys) as -> by congruence.
    simpl. apply diff_loop in H1 as [Hm _]. rewrite Hm.
    rewrite (bool_decide_eq_true_2 _ Hin). unfold diff_entry.
    rewrite (bool_decide_eq_true_2 _ Hne), Hk.
    by rewrite (bool_decide_eq_true_2 _ Hd).
Qed.

Lemma missing_keys_en_entry_demo :
  missing_keys_en Demo.report !! Demo.de
  = Some (elements (diff_missing Demo.en_keys ∅)) ↔
  Demo.de ∈ Demo.files ∧ Demo.de ≠ Demo.en ∧
  ∃ keys, load_keys Demo.world Demo.de = Ok keys ∧
          diff_missing Demo.en_keys keys ≠ ∅ ∧
          elements (diff_missing Demo.en_keys ∅)
          = elements (diff_missing Demo.en_keys keys).
Proof.
  apply (missing_keys_en_entry Demo.world "src" Demo.files Demo.en
           Demo.report Demo.en_keys Demo.de).
  - vm_compute. reflexivity.
  - reflexivity.
Defined.

(** X3: listing the reference path among the translation files, once or
    several times, or not at all, gives the same run. *)
Theorem reference_listing_is_irrelevant w root_dir translation_files en_file :
  find_missing_translations w root_dir translation_files en_file
  = find_missing_translations w root_dir
      (filter (λ f, f ≠ en_file) translation_files) en_file.
Proof.
  unfold find_missing_translations.
  destruct (load_keys w en_file) as [en_keys|e]; [|done].
  rewrite <-(foldM_skip (diff_file w en_file en_keys) en_file).
  - destruct (foldM (diff_file _ _ _) _ _) as [part1|]; [|done].
    simpl. rewrite <-(foldM_skip (add_translations w en_file) en_file);
      [done|].
    intros all. unfold add_translations.
    by rewrite (bool_decide_eq_false_2 (en_file ≠ en_file)) by tauto.
  - intros st. unfold diff_file.
    by rewrite (bool_decide_eq_false_2 (en_file ≠ en_file)) by tauto.
Qed.

(** ** When the run returns and when it raises *)

Lemma foldM_Ok_Forall {A B} (f : B → A → result B) (ok : A → Prop) l :
  (∀ b x, (∃ b', f b x = Ok b') ↔ ok x) →
  ∀ b, (∃ b', foldM f b l = Ok b') ↔ Forall ok l.
Proof.
  intros Hok. induction l as [|x l IH]; intros b.
  - split; [constructor|]. by exists b.
  - rewrite foldM_cons, Forall_cons, <-(Hok b x).
    destruct (f b x) as [b1|e]; [rewrite IH|]; split.
    + eauto.
    + tauto.
    + by intros [? ?].
    + by intros [[? ?] _].
Qed.

Lemma foldM_raise_first {A B} (f : B → A → result B) (ok : A → Prop)
    pre x post e :
  (∀ b y, ok y → ∃ b', f b y = Ok b') →
  (∀ b, f b x = Raise e) →
  Forall ok pre →
  ∀ b, foldM f b (pre ++ x :: post) = Raise e.
Proof.
  intros Hok Hx Hpre. induction Hpre as [|y pre Hy Hpre IH]; intros b.
  - change ([] ++ x :: post) with (x :: post). rewrite foldM_cons.
    by rewrite Hx.
  - change ((y :: pre) ++ x :: post) with (y :: (pre ++ x :: post)).
    rewrite foldM_cons. destruct (Hok b y Hy) as [b' ->]. apply IH.
Qed.

Lemma diff_file_Ok_iff w en_file en_keys st file :
  (∃ st', diff_file w en_file en_keys st file = Ok st') ↔
  (file ≠ en_file → locale_ok w file = true).
Proof.
  unfold diff_file, locale_ok.
  destruct (decide (file = en_file)) as [->|Hne].
  - rewrite (bool_decide_eq_false_2 (en_file ≠ en_file)) by tauto.
    split; [tauto|eauto].
  - rewrite (bool_decide_eq_true_2 _ Hne).
    destruct (load_keys w file) as [keys|[]]; simpl.
    + split; [done|]. destruct (bool_decide _); eauto.
    + split; [done|eauto].
    + split; [done|eauto].
    + split; [by intros [? ?]|]. intros H. by specialize (H Hne).
    + split; [by intros [? ?]|]. intros H. by specialize (H Hne).
    + split; [by intros [? ?]|]. intros H. by specialize (H Hne).
Qed.

Lemma add_translations_Ok_iff w en_file all_translations file :
  (∃ all', add_translations w en_file all_translations file = Ok all') ↔
  (file ≠ en_file → locale_ok w file = true).
Proof.
  unfold add_translations, locale_ok.
  destruct (decide (file = en_file)) as [->|Hne].
  - rewrite (bool_decide_eq_false_2 (en_file ≠ en_file)) by tauto.
    split; [tauto|eauto].
  - rewrite (bool_decide_eq_true_2 _ Hne).
    destruct (load_keys w file) as [keys|[]]; simpl;
      (split; [done|eauto]) ||
      (split; [by intros [? ?]|intros H; by specialize (H Hne)]).
Qed.

Lemma scan_file_Ok_iff w all_translations root st file :
  (∃ st', scan_file w all_translations root st file = Ok st') ↔
  (is_template file = true →
   template_ok w (Py.path_join root file) = true).
Proof.
  unfold scan_file, template_ok. destruct (is_template file).
  - destruct (read_text w (Py.path_join root file)) as [content|[]];
      (split; [done|eauto]) ||
      (split; [by intros [? ?]|intros H; by specialize (H eq_refl)]).
  - split; [done|eauto].
Qed.

Lemma scan_dir_Ok_iff w all_translations st entry :
  (∃ st', scan_dir w all_translations st entry = Ok st') ↔ entry_ok w entry.
Proof.
  destruct entry as [[root dirs] files]. unfold scan_dir, entry_ok. simpl.
  rewrite (foldM_Ok_Forall _
             (λ file, is_template file = true →
                      template_ok w (Py.path_join root file) = true))
    by (intros; apply scan_file_Ok_iff).
  apply Forall_forall.
Qed.

(** X4: when the reference file loads, the run returns a report exactly
    when every listed file other than the reference loads or fails with
    one of the two exceptions that are skipped, and every template of the
    walk is read or fails to decode; otherwise it raises. *)
Theorem run_returns_iff w root_dir translation_files en_file en_keys :
  load_keys w en_file = Ok en_keys →
  (∃ r, find_missing_translations w root_dir translation_files en_file
        = Ok r) ↔
  (∀ file, file ∈ translation_files → file ≠ en_file →
           locale_ok w file = true) ∧
  (∀ entry, entry ∈ os_walk w root_dir → entry_ok w entry).
Proof.
  intros Hen. split.
  - intros [r H]. apply run_inv in H as [[[?|?] _]|H]; [congruence..|].
    destruct H as (ek & part1 & all & st & Hek & H1 & H2 & H3 & _).
    split.
    + apply (proj1 (Forall_forall
               (λ file, file ≠ en_file → locale_ok w file = true)
               translation_files)).
      apply (foldM_Ok_Forall _ _ _
               (λ b x, diff_file_Ok_iff w en_file ek b x) (∅, 0)).
      by exists part1.
    + apply (proj1 (Forall_forall (entry_ok w) (os_walk w root_dir))).
      apply (foldM_Ok_Forall (scan_dir w all) _ _
               (λ b x, scan_dir_Ok_iff w all b x) init_state).
      by exists st.
  - intros [Hloc Hwalk]. apply Forall_forall in Hloc.
    apply Forall_forall in Hwalk.
    unfold find_missing_translations. rewrite Hen.
    destruct (proj2 (foldM_Ok_Forall _ _ _
                (λ b x, diff_file_Ok_iff w en_file en_keys b x) (∅, 0)) Hloc)
      as [part1 ->].
    destruct (proj2 (foldM_Ok_Forall _ _ _
                (λ b x, add_translations_Ok_iff w en_file b x)
                {[en_file := en_keys]}) Hloc) as [all ->].
    simpl.
    destruct (proj2 (foldM_Ok_Forall (scan_dir w all) _ _
                (λ b x, scan_dir_Ok_iff w all b x) init_state) Hwalk)
      as [st ->].
    simpl. eauto.
Qed.

Lemma run_returns_iff_demo :
  (∃ r, find_missing_translations Demo.world "src" Demo.files Demo.en
        = Ok r) ↔
  (∀ file, file ∈ Demo.files → file ≠ Demo.en →
           locale_ok Demo.world file = true) ∧
  (∀ entry, entry ∈ os_walk Demo.world "src" → entry_ok Demo.world entry).
Proof.
  apply (run_returns_iff Demo.world "src" Demo.files Demo.en Demo.en_keys).
  reflexivity.
Defined.

(** X5: when the reference file loads, the first listed file whose load
    raises anything but the two skipped exceptions ends the run with that
    exception (a file holding JSON that is not an object raises
    [AttributeError]). *)
Theorem locale_error_propagates w root_dir en_file en_keys pre file post e :
  load_keys w en_file = Ok en_keys →
  (∀ f, f ∈ pre → f ≠ en_file → locale_ok w f = true) →
  file ≠ en_file →
  load_keys w file = Raise e →
  e ≠ FileNotFoundError → e ≠ JSONDecodeError →
  find_missing_translations w root_dir (pre ++ file :: post) en_file
  = Raise e.
Proof.
  intros Hen Hpre Hne He H1 H2. unfold find_missing_translations.
  rewrite Hen.
  rewrite (foldM_raise_first (diff_file w en_file en_keys)
             (λ f, f ≠ en_file → locale_ok w f = true) pre file post e).
  - done.
  - intros b y Hy. by apply diff_file_Ok_iff.
  - intros b. unfold diff_file. rewrite (bool_decide_eq_true_2 _ Hne), He.
    by destruct e.
  - by apply Forall_forall.
Qed.

Lemma locale_error_propagates_demo :
  find_missing_translations
    {| json_load file :=
         if String.eqb file Demo.de then Ok (JArray []) else Ok (JObject []);
       read_text _ := Raise OSError;
       os_walk _ := [] |}
    "src" ([Demo.en; Demo.fr] ++ Demo.de :: [Demo.fr]) Demo.en
  = Raise AttributeError.
Proof.
  apply (locale_error_propagates _ "src" Demo.en ∅ [Demo.en; Demo.fr]
           Demo.de [Demo.fr] AttributeError).
  - reflexivity.
  - intros f Hf Hne.
    apply elem_of_cons in Hf as [->|Hf]; [done|].
    apply elem_of_cons in Hf as [->|Hf]; [reflexivity|].
    by apply elem_of_nil in Hf.
  - discriminate.
  - reflexivity.
  - discriminate.
  - discriminate.
Defined.

(** X6: when the reference file loads and every listed file loads or is
    skipped, the first template of the walk whose read raises anything but
    [UnicodeDecodeError] ends the run with that exception. *)
Theorem template_error_propagates w root_dir translation_files en_file
    en_keys pre root dirs fpre file fpost post e :
  load_keys w en_file = Ok en_keys →
  (∀ f, f ∈ translation_files → f ≠ en_file → locale_ok w f = true) →
  os_walk w root_dir = pre ++ (root, dirs, fpre ++ file :: fpost) :: post →
  (∀ entry, entry ∈ pre → entry_ok w entry) →
  (∀ f, f ∈ fpre → is_template f = true →
        template_ok w (Py.path_join root f) = true) →
  is_template file = true →
  read_text w (Py.path_join root file) = Raise e →
  e ≠ UnicodeDecodeError →
  find_missing_translations w root_dir translation_files en_file = Raise e.
Proof.
  intros Hen Hloc Hwalk Hpre Hfpre Htpl He Hne.
  unfold find_missing_translations. rewrite Hen.
  apply Forall_forall in Hloc.
  destruct (proj2 (foldM_Ok_Forall _ _ _
              (λ b x, diff_file_Ok_iff w en_file en_keys b x) (∅, 0)) Hloc)
    as [part1 ->].
  destruct (proj2 (foldM_Ok_Forall _ _ _
              (λ b x, add_translations_Ok_iff w en_file b x)
              {[en_file := en_keys]}) Hloc) as [all ->].
  simpl. rewrite Hwalk.
  rewrite (foldM_raise_first (scan_dir w all) (entry_ok w) pre _ post e).
  - done.
  - intros b y Hy. by apply scan_dir_Ok_iff.
  - intros b. unfold scan_dir.
    apply (foldM_raise_first (scan_file w all root)
             (λ f, is_template f = true →
                   template_ok w (Py.path_join root f) = true)).
    + intros b' y Hy. by apply scan_file_Ok_iff.
    + intros b'. unfold scan_file. rewrite Htpl, He. by destruct e.
    + by apply Forall_forall.
  - by apply Forall_forall.
Qed.

Lemma template_error_propagates_demo :
  find_missing_translations
    {| json_load := json_load Demo.world;
       read_text := read_text Demo.world;
       os_walk _ := [] ++ ("src/app"%string, [], [] ++ "x.html"%string :: [])
                       :: [] |}
    "src" Demo.files Demo.en
  = Raise OSError.
Proof.
  apply (template_error_propagates _ "src" Demo.files Demo.en Demo.en_keys
           [] "src/app" [] [] "x.html" [] [] OSError).
  - reflexivity.
  - intros f Hf Hne. unfold Demo.files in Hf.
    repeat (apply elem_of_cons in Hf as [->|Hf]; [reflexivity|]).
    by apply elem_of_nil in Hf.
  - reflexivity.
  - intros entry Hin. by apply elem_of_nil in Hin.
  - intros f Hin. by apply elem_of_nil in Hin.
  - reflexivity.
  - reflexivity.
  - discriminate.
Defined.

(** ** Where the buckets come from *)

Lemma is_template_spec file :
  is_template file = true ↔
  Py.endswith file ".html" = true ∧ file ≠ "index.html"%string.
Proof.
  unfold is_template.
  by rewrite andb_true_iff, negb_true_iff, String.eqb_neq.
Qed.

Lemma elem_of_scanned w root_dir path content :
  (path, content) ∈ scanned w root_dir ↔
  ∃ root dirs files file,
    (root, dirs, files) ∈ os_walk w root_dir ∧ file ∈ files ∧
    is_template file = true ∧ path = Py.path_join root file ∧
    read_text w path = Ok content.
Proof.
  unfold scanned. rewrite list_elem_of_bind. split.
  - intros ([[root dirs] files] & Hin & Hentry). unfold templates_in in Hin.
    apply list_elem_of_bind in Hin as (file & Hin & Hfile).
    destruct (is_template file) eqn:Ht; [|by apply elem_of_nil in Hin].
    destruct (read_text w (Py.path_join root file)) as [c|] eqn:Hr;
      [|by apply elem_of_nil in Hin].
    apply list_elem_of_singleton in Hin. inversion Hin; subst.
    by exists root, dirs, files, file.
  - intros (root & dirs & files & file & Hentry & Hfile & Ht & -> & Hr).
    exists (root, dirs, files). split; [|done]. unfold templates_in.
    apply list_elem_of_bind. exists file. split; [|done].
    rewrite Ht, Hr. by apply list_elem_of_singleton.
Qed.

(** X7: every path in a bucket is the join of a directory of the walk and
    one of its file names, the name ends in [.html] and is not
    [index.html], the file was read, and its text holds the token.  So no
    [index.html] and no file without the suffix is ever reported. *)
Theorem origins_are_read_templates w root_dir translation_files en_file r :
  find_missing_translations w root_dir translation_files en_file = Ok r →
  (∀ key bucket path,
     missing_translations_html r !! key = Some bucket → path ∈ bucket →
     ∃ root dirs files file content,
       (root, dirs, files) ∈ os_walk w root_dir ∧ file ∈ files ∧
       Py.endswith file ".html" = true ∧ file ≠ "index.html"%string ∧
       path = Py.path_join root file ∧ read_text w path = Ok content ∧
       key ∈ static_text content) ∧
  (∀ key bucket path,
     missing_transloco_keys r !! key = Some bucket → path ∈ bucket →
     ∃ root dirs files file content,
       (root, dirs, files) ∈ os_walk w root_dir ∧ file ∈ files ∧
       Py.endswith file ".html" = true ∧ file ≠ "index.html"%string ∧
       path = Py.path_join root file ∧ read_text w path = Ok content ∧
       key ∈ transloco_keys content).
Proof.
  intros H. split; intros key bucket path Hb Hpath.
  - destruct (missing_html_bucket _ _ _ _ _ _ _ H Hb) as (_ & -> & _).
    unfold static_origins in Hpath.
    apply list_elem_of_fmap in Hpath as ([p content] & -> & Hin).
    apply list_elem_of_filter in Hin as [Hkey Hin]. simpl in *.
    apply elem_of_scanned in Hin
      as (root & dirs & files & file & He & Hf & Ht & -> & Hr).
    apply is_template_spec in Ht as [Hs Hi].
    by exists root, dirs, files, file, content.
  - destruct (missing_transloco_bucket _ _ _ _ _ _ _ H Hb)
      as (_ & _ & -> & _).
    unfold transloco_origins in Hpath.
    apply list_elem_of_fmap in Hpath as ([p content] & -> & Hin).
    apply list_elem_of_filter in Hin as [Hkey Hin]. simpl in *.
    apply elem_of_scanned in Hin
      as (root & dirs & files & file & He & Hf & Ht & -> & Hr).
    apply is_template_spec in Ht as [Hs Hi].
    by exists root, dirs, files, file, content.
Qed.

Lemma origins_are_read_templates_demo :
  (∀ key bucket path,
     missing_translations_html Demo.report !! key = Some bucket →
     path ∈ bucket →
     ∃ root dirs files file content,
       (root, dirs, files) ∈ os_walk Demo.world "src" ∧ file ∈ files ∧
       Py.endswith file ".html" = true ∧ file ≠ "index.html"%string ∧
       path = Py.path_join root file ∧
       read_text Demo.world path = Ok content ∧
       key ∈ static_text content) ∧
  (∀ key bucket path,
     missing_transloco_keys Demo.report !! key = Some bucket →
     path ∈ bucket →
     ∃ root dirs files file content,
       (root, dirs, files) ∈ os_walk Demo.world "src" ∧ file ∈ files ∧
       Py.endswith file ".html" = true ∧ file ≠ "index.html"%string ∧
       path = Py.path_join root file ∧
       read_text Demo.world path = Ok content ∧
       key ∈ transloco_keys content).
Proof.
  apply (origins_are_read_templates Demo.world "src" Demo.files Demo.en).
  vm_compute. reflexivity.
Defined.

(** X8: when the walk reads no path twice, no bucket names a file twice. *)
Theorem buckets_without_repetition w root_dir translation_files en_file r
    key bucket :
  find_missing_translations w root_dir translation_files en_file = Ok r →
  NoDup (scanned w root_dir).*1 →
  missing_translations_html r !! key = Some bucket ∨
  missing_transloco_keys r !! key = Some bucket →
  NoDup bucket.
Proof.
  intros H Hnd [Hb|Hb].
  - destruct (missing_html_bucket _ _ _ _ _ _ _ H Hb) as (_ & -> & _).
    unfold static_origins. eapply sublist_NoDup; [done|].
    apply fmap_sublist, sublist_filter.
  - destruct (missing_transloco_bucket _ _ _ _ _ _ _ H Hb)
      as (_ & _ & -> & _).
    unfold transloco_origins. eapply sublist_NoDup; [done|].
    apply fmap_sublist, sublist_filter.
Qed.

Lemma buckets_without_repetition_demo :
  NoDup ["src/app/home.html"; "src/app/nav.html"]%string.
Proof.
  apply (buckets_without_repetition Demo.world "src" Demo.files Demo.en
           Demo.report "Welcome").
  - vm_compute. reflexivity.
  - apply (bool_decide_unpack _). vm_compute. exact I.
  - left. vm_compute. reflexivity.
Defined.

(** ** Totals and mappings *)

Lemma sum_lengths_zero (m : gmap string (list string)) :
  (∀ k l, m !! k = Some l → l ≠ []) →
  sum_lengths m = 0 ↔ m = ∅.
Proof.
  intros Hne. split; [|intros ->; apply sum_lengths_empty].
  intros Hs. destruct (map_choose_or_empty m) as [(k & l & Hk)|]; [|done].
  rewrite (sum_lengths_delete k m), Hk in Hs. simpl in Hs.
  specialize (Hne _ _ Hk). destruct l; [done|]. simpl in Hs. lia.
Qed.

(** X9: each total is zero exactly when its mapping is empty. *)
Theorem zero_totals_iff_empty w root_dir translation_files en_file r :
  find_missing_translations w root_dir translation_files en_file = Ok r →
  (total_missing_static r = 0 ↔ missing_translations_html r = ∅) ∧
  (total_missing_transloco r = 0 ↔ missing_transloco_keys r = ∅) ∧
  (total_missing_keys_en r = 0 ↔ missing_keys_en r = ∅).
Proof.
  intros H. destruct (report_consistent _ _ _ _ _ H) as [-> ->].
  split_and!.
  - apply sum_lengths_zero. intros k l Hl.
    by destruct (missing_html_bucket _ _ _ _ _ _ _ H Hl) as (_ & _ & ?).
  - apply sum_lengths_zero. intros k l Hl.
    by destruct (missing_transloco_bucket _ _ _ _ _ _ _ H Hl)
      as (_ & _ & _ & ?).
  - destruct (report_diff_entries _ _ _ _ _ H) as [Hd ->].
    rewrite sum_list_zero, map_empty. split.
    + intros Hz file.
      destruct (missing_keys_en r !! file) as [l|] eqn:Hl; [|done].
      destruct (Hd _ _ Hl) as (Hin & _ & ek & keys & _ & _ & Hne & ->).
      specialize (Hz _ Hin). rewrite Hl in Hz. simpl in Hz.
      apply nil_length_inv, elements_empty_inv, leibniz_equiv in Hz. done.
    + intros Hm file _. by rewrite Hm.
Qed.

Lemma zero_totals_iff_empty_demo :
  (total_missing_static Demo.report = 0 ↔
   missing_translations_html Demo.report = ∅) ∧
  (total_missing_transloco Demo.report = 0 ↔
   missing_transloco_keys Demo.report = ∅) ∧
  (total_missing_keys_en Demo.report = 0 ↔ missing_keys_en Demo.report = ∅).
Proof.
  apply (zero_totals_iff_empty Demo.world "src" Demo.files Demo.en).
  vm_compute. reflexivity.
Defined.

(** ** The shape of the tokens *)

Local Open Scope string_scope.

Lemma str_app_nil_r (s : string) : s ++ "" = s.
Proof. induction s as [|a s IH]; [done|]. by rewrite app_String, IH. Qed.

Lemma contains_app c (s t : string) :
  Py.contains c (s ++ t) = Py.contains c s || Py.contains c t.
Proof.
  induction s as [|a s IH]; [done|]. rewrite app_String. simpl.
  by rewrite IH, orb_assoc.
Qed.

Lemma plain_span_middle (l t r : string) :
  plain_span (l ++ t ++ r) → plain_span t.
Proof.
  unfold plain_span. rewrite !contains_app, !orb_false_iff. tauto.
Qed.

(** X10: a static token is never empty, has no blank at either end, and
    holds none of [<], [>], [{] and [[]. *)
Theorem static_token_shape content token :
  token ∈ static_text content →
  token ≠ "" ∧ Py.strip token = token ∧ plain_span token.
Proof.
  intros (span & Hin & Hs & Hne)%elem_of_static_text.
  apply findall_static_sound in Hin as (pre & post & _ & Hx).
  apply all_chars_plain in Hx.
  apply (strip_trimmed _ _ Hne) in Hs as (l & r & -> & Hl & Hr & Hf & Hla).
  split_and!; [done| |by eapply plain_span_middle].
  apply (strip_trimmed _ _ Hne). exists "", "".
  by rewrite str_app_nil_r.
Qed.

Lemma static_token_shape_demo :
  "nav.title" ≠ "" ∧ Py.strip "nav.title" = "nav.title" ∧
  plain_span "nav.title".
Proof.
  apply (static_token_shape Demo.nav_html "nav.title").
  apply (bool_decide_unpack _). vm_compute. exact I.
Defined.

Lemma findall_from_sound m skip s x :
  x ∈ Re.findall_from m skip s →
  ∃ pre suf n, s = pre ++ suf ∧ m suf = Some (x, n).
Proof.
  revert skip. induction s as [|c r IH]; intros skip H.
  - by apply elem_of_nil in H.
  - assert (Hrec : ∀ k, x ∈ Re.findall_from m k r →
      ∃ pre suf n, String c r = pre ++ suf ∧ m suf = Some (x, n)).
    { intros k Hk. destruct (IH _ Hk) as (pre & suf & n & -> & Hm).
      by exists (String c pre), suf, n. }
    cbn [Re.findall_from] in H. destruct skip as [|k]; [|by eapply Hrec].
    destruct (m (String c r)) as [[g n]|] eqn:Hm; [|by eapply Hrec].
    apply elem_of_cons in H as [->|H]; [|by eapply Hrec].
    by exists "", (String c r), n.
Qed.

Lemma lit_sound p s t n : Re.lit p s = Some (t, n) → s = p ++ t.
Proof.
  revert s t n. induction p as [|a p IH]; intros s t n; simpl.
  - by intros [= ->].
  - destruct s as [|b s]; [done|].
    destruct (Ascii.eqb a b) eqn:Hab; [|done].
    apply Ascii.eqb_eq in Hab as ->.
    destruct (Re.lit p s) as [[t' n']|] eqn:Hl; [|done].
    intros [= <- <-]. by rewrite (IH _ _ _ Hl).
Qed.

Lemma lit_complete p t : Re.lit p (p ++ t) = Some (t, String.length p).
Proof.
  induction p as [|a p IH]; [done|]. rewrite app_String. simpl.
  by rewrite Ascii.eqb_refl, IH.
Qed.

Lemma spaces_sound s t n :
  Re.spaces s = (t, n) →
  ∃ ws, s = ws ++ t ∧ all_chars Py.isspace ws = true.
Proof.
  revert t n. induction s as [|a s IH]; intros t n; simpl.
  - intros [= <- <-]. by exists "".
  - destruct (Py.isspace a) eqn:Ha.
    + destruct (Re.spaces s) as [t' n'] eqn:Hs. intros [= <- <-].
      destruct (IH _ _ eq_refl) as (ws & -> & Hws).
      exists (String a ws). simpl. by rewrite Ha, Hws.
    + intros [= <- <-]. by exists "".
Qed.

Lemma spaces_complete ws t :
  all_chars Py.isspace ws = true →
  (∀ c, first_char t = Some c → Py.isspace c = false) →
  Re.spaces (ws ++ t) = (t, String.length ws).
Proof.
  intros Hws Ht. induction ws as [|a ws IH].
  - change ("" ++ t) with t. destruct t as [|c t]; [done|].
    simpl. by rewrite (Ht c).
  - rewrite app_String. simpl in *.
    apply andb_true_iff in Hws as [Ha Hws]. by rewrite Ha, (IH Hws).
Qed.

Lemma quoted_sound s g t n :
  Re.quoted s = Some (g, t, n) →
  s = g ++ String "'" t ∧ Py.contains "'" g = false.
Proof.
  revert g t n. induction s as [|a s IH]; intros g t n; simpl; [done|].
  destruct (Ascii.eqb a "'") eqn:Ha.
  - apply Ascii.eqb_eq in Ha as ->. by intros [= <- <- <-].
  - destruct (Re.quoted s) as [[[g' t'] n']|] eqn:Hq; [|done].
    intros [= <- <- <-]. destruct (IH _ _ _ eq_refl) as [-> Hg].
    split; [done|]. simpl. by rewrite Ha, Hg.
Qed.

Lemma quoted_complete g t :
  Py.contains "'" g = false →
  Re.quoted (g ++ String "'" t) = Some (g, t, S (String.length g)).
Proof.
  induction g as [|a g IH]; [done|]. rewrite app_String. simpl.
  intros [Ha Hg]%orb_false_iff. by rewrite Ha, (IH Hg).
Qed.

Lemma lit_head_mismatch a p c s :
  Ascii.eqb a c = false → Re.lit (String a p) (String c s) = None.
Proof. simpl. by intros ->. Qed.

Lemma lit_char a t : Re.lit (String a "") (String a t) = Some (t, 1).
Proof. simpl. by rewrite Ascii.eqb_refl. Qed.

Local Arguments Re.lit : simpl never.
Local Arguments Re.spaces : simpl never.
Local Arguments Re.quoted : simpl never.

Lemma transloco_at_sound s g n :
  Re.transloco_at s = Some (g, n) →
  ∃ ws1 ws2 ws3 ws4 post,
    s = pipe_expr ws1 g ws2 ws3 ws4 post ∧
    all_chars Py.isspace ws1 = true ∧ all_chars Py.isspace ws2 = true ∧
    all_chars Py.isspace ws3 = true ∧ all_chars Py.isspace ws4 = true ∧
    g ≠ "" ∧ Py.contains "'" g = false.
Proof.
  unfold Re.transloco_at.
  destruct (Re.lit "{{" s) as [[s1 n1]|] eqn:H1; simpl; [|done].
  destruct (Re.spaces s1) as [s2 n2] eqn:H2.
  destruct (Re.lit "'" s2) as [[s3 n3]|] eqn:H3; simpl; [|done].
  destruct (Re.quoted s3) as [[[g' s4] n4]|] eqn:H4; simpl; [|done].
  destruct (Py.truthy g') eqn:Hg; [|done].
  destruct (Re.spaces s4) as [s5 n5] eqn:H5.
  destruct (Re.lit "|" s5) as [[s6 n6]|] eqn:H6; simpl; [|done].
  destruct (Re.spaces s6) as [s7 n7] eqn:H7.
  destruct (Re.lit "transloco" s7) as [[s8 n8]|] eqn:H8; simpl; [|done].
  destruct (Re.spaces s8) as [s9 n9] eqn:H9.
  destruct (Re.lit "}}" s9) as [[post n10]|] eqn:H10; simpl; [|done].
  intros [= <- <-].
  apply lit_sound in H1, H3, H6, H8, H10.
  apply spaces_sound in H2 as (ws1 & E2 & Hw1).
  apply spaces_sound in H5 as (ws2 & E5 & Hw2).
  apply spaces_sound in H7 as (ws3 & E7 & Hw3).
  apply spaces_sound in H9 as (ws4 & E9 & Hw4).
  apply quoted_sound in H4 as [E4 Hq].
  exists ws1, ws2, ws3, ws4, post. split_and!; [|done..| |done].
  - unfold pipe_expr. by subst.
  - by destruct g'.
Qed.

Lemma transloco_at_complete ws1 key ws2 ws3 ws4 post :
  all_chars Py.isspace ws1 = true → all_chars Py.isspace ws2 = true →
  all_chars Py.isspace ws3 = true → all_chars Py.isspace ws4 = true →
  key ≠ "" → Py.contains "'" key = false →
  ∃ n, Re.transloco_at (pipe_expr ws1 key ws2 ws3 ws4 post) = Some (key, n).
Proof.
  intros H1 H2 H3 H4 Hne Hq. unfold pipe_expr, Re.transloco_at.
  rewrite lit_complete. simpl.
  rewrite (spaces_complete ws1) by (done || by intros c [= <-]).
  rewrite lit_char. simpl.
  rewrite (quoted_complete _ _ Hq). simpl.
  destruct key as [|k key]; [done|]. cbn [Py.truthy].
  rewrite (spaces_complete ws2) by (done || by intros c [= <-]).
  rewrite lit_char. simpl.
  rewrite (spaces_complete ws3)
    by (done || (rewrite first_char_app by done; by intros c [= <-])).
  rewrite (lit_complete "transloco"). simpl.
  rewrite (spaces_complete ws4)
    by (done || (rewrite first_char_app by done; by intros c [= <-])).
  rewrite (lit_complete "}}"). simpl. eauto.
Qed.

Lemma findall_transloco_first pre suf x n :
  Py.contains "{" pre = false →
  Re.transloco_at suf = Some (x, n) →
  x ∈ Re.findall_from Re.transloco_at 0 (pre ++ suf).
Proof.
  intros Hpre Hm. induction pre as [|c pre IH].
  - change ("" ++ suf) with suf. destruct suf as [|a suf]; [done|].
    cbn [Re.findall_from]. rewrite Hm. apply elem_of_cons. by left.
  - rewrite app_String. cbn [Re.findall_from].
    simpl in Hpre. apply orb_false_iff in Hpre as [Hc Hpre].
    assert (Re.transloco_at (String c (pre ++ suf)) = None) as ->.
    { unfold Re.transloco_at. rewrite lit_head_mismatch; [done|].
      by rewrite Ascii.eqb_sym. }
    by apply IH.
Qed.

(** X11: every lookup token stands in the text between single quotes
    inside a [{{ 'key' | transloco }}] expression with nothing but blanks
    around the quotes, the bar and the word; it is never empty and holds
    no single quote. *)
Theorem lookup_token_occurs content key :
  key ∈ transloco_keys content →
  ∃ pre ws1 ws2 ws3 ws4 post,
    content = pre ++ pipe_expr ws1 key ws2 ws3 ws4 post ∧
    all_chars Py.isspace ws1 = true ∧ all_chars Py.isspace ws2 = true ∧
    all_chars Py.isspace ws3 = true ∧ all_chars Py.isspace ws4 = true ∧
    key ≠ "" ∧ Py.contains "'" key = false.
Proof.
  unfold transloco_keys, Re.findall. rewrite elem_of_list_to_set.
  intros (pre & suf & n & -> & Hm)%findall_from_sound.
  apply transloco_at_sound in Hm
    as (ws1 & ws2 & ws3 & ws4 & post & -> & H).
  by exists pre, ws1, ws2, ws3, ws4, post.
Qed.

Lemma lookup_token_occurs_demo :
  ∃ pre ws1 ws2 ws3 ws4 post,
    Demo.home_html = pre ++ pipe_expr ws1 "greeting" ws2 ws3 ws4 post ∧
    all_chars Py.isspace ws1 = true ∧ all_chars Py.isspace ws2 = true ∧
    all_chars Py.isspace ws3 = true ∧ all_chars Py.isspace ws4 = true ∧
    "greeting" ≠ "" ∧ Py.contains "'" "greeting" = false.
Proof.
  apply (lookup_token_occurs Demo.home_html "greeting").
  apply (bool_decide_unpack _). vm_compute. exact I.
Defined.

(** X12: a lookup expression that no [{] precedes in the text is found:
    its key is a lookup token. *)
Theorem first_lookup_expression_found pre ws1 key ws2 ws3 ws4 post :
  Py.contains "{" pre = false →
  all_chars Py.isspace ws1 = true → all_chars Py.isspace ws2 = true →
  all_chars Py.isspace ws3 = true → all_chars Py.isspace ws4 = true →
  key ≠ "" → Py.contains "'" key = false →
  key ∈ transloco_keys (pre ++ pipe_expr ws1 key ws2 ws3 ws4 post).
Proof.
  intros Hpre H1 H2 H3 H4 Hne Hq.
  destruct (transloco_at_complete ws1 key ws2 ws3 ws4 post) as [n Hm];
    [done..|].
  unfold transloco_keys, Re.findall. apply elem_of_list_to_set.
  by eapply findall_transloco_first.
Qed.

Lemma first_lookup_expression_found_demo :
  "greeting" ∈ transloco_keys
    ("<div>Welcome</div>" ++ pipe_expr " " "greeting" " " " " " " "").
Proof.
  apply (first_lookup_expression_found "<div>Welcome</div>" " " "greeting"
           " " " " " " ""); done.
Defined.

Local Open Scope list_scope.

(** ** The order of the translation files *)

Lemma diff_loop_perm w en_file en_keys l l' st p :
  l ≡ₚ l' →
  foldM (diff_file w en_file en_keys) st l = Ok p →
  foldM (diff_file w en_file en_keys) st l' = Ok p.
Proof.
  intros Hperm H.
  assert (H' : ∃ p', foldM (diff_file w en_file en_keys) st l' = Ok p').
  { apply (foldM_Ok_Forall _ _ _
             (λ b x, diff_file_Ok_iff w en_file en_keys b x)).
    rewrite <-Hperm.
    apply (foldM_Ok_Forall _ _ _
             (λ b x, diff_file_Ok_iff w en_file en_keys b x) st).
    by exists p. }
  destruct H' as [p' H']. rewrite H'. f_equal.
  destruct (diff_loop _ _ _ _ _ _ H) as [Hm Ht].
  destruct (diff_loop _ _ _ _ _ _ H') as [Hm' Ht'].
  destruct p as [m t], p' as [m' t']. simpl in *. f_equal.
  - apply map_eq. intros file. rewrite Hm, Hm'.
    apply (f_equal (λ b : bool, if b then _ else _)).
    apply bool_decide_ext. by rewrite Hperm.
  - rewrite Ht, Ht'. f_equal. by rewrite Hperm.
Qed.

Lemma known_loop_perm w en_file l l' init all :
  l ≡ₚ l' →
  foldM (add_translations w en_file) init l = Ok all →
  foldM (add_translations w en_file) init l' = Ok all.
Proof.
  intros Hperm H.
  assert (H' : ∃ a', foldM (add_translations w en_file) init l' = Ok a').
  { apply (foldM_Ok_Forall _ _ _
             (λ b x, add_translations_Ok_iff w en_file b x)).
    rewrite <-Hperm.
    apply (foldM_Ok_Forall _ _ _
             (λ b x, add_translations_Ok_iff w en_file b x) init).
    by exists all. }
  destruct H' as [a' H']. rewrite H'. f_equal.
  apply map_eq. intros file.
  rewrite (known_loop _ _ _ _ _ H), (known_loop _ _ _ _ _ H').
  apply (f_equal (λ b : bool, if b then _ else _)).
  apply bool_decide_ext. by rewrite Hperm.
Qed.

(** X13: a run that returns a report returns the same report, as three
    mappings and three totals, for any reordering of the translation
    files. *)
Theorem listing_order_is_irrelevant w root_dir translation_files
    translation_files' en_file r :
  translation_files ≡ₚ translation_files' →
  find_missing_translations w root_dir translation_files en_file = Ok r →
  find_missing_translations w root_dir translation_files' en_file = Ok r.
Proof.
  intros Hperm H. apply run_inv in H as [[Hen ->]|H].
  - unfold find_missing_translations. by destruct Hen as [-> | ->].
  - destruct H as (en_keys & part1 & all & st & Hen & H1 & H2 & H3 & ->).
    unfold find_missing_translations. rewrite Hen.
    rewrite (diff_loop_perm _ _ _ _ _ _ _ Hperm H1). simpl.
    rewrite (known_loop_perm _ _ _ _ _ _ Hperm H2). simpl.
    by rewrite H3.
Qed.

Lemma listing_order_is_irrelevant_demo :
  find_missing_translations Demo.world "src" [Demo.fr; Demo.de; Demo.en]
    Demo.en = Ok Demo.report.
Proof.
  apply (listing_order_is_irrelevant Demo.world "src" Demo.files).
  - unfold Demo.files. by rewrite <-reverse_Permutation.
  - vm_compute. reflexivity.
Defined.

(** ** What the run prints *)

Lemma foldM_out_result {A B} (f' : B → A → out B) (f : B → A → result B) l :
  (∀ b x, (f' b x).2 = f b x) →
  ∀ b, (foldM_out f' b l).2 = foldM f b l.
Proof.
  intros Hf. induction l as [|x l IH]; intros b; [done|].
  rewrite foldM_cons, <-Hf. cbn [foldM_out].
  destruct (f' b x) as [lines [b'|e]]; [|done]. simpl. rewrite <-IH.
  by destruct (foldM_out f' b' l).
Qed.

Lemma foldM_out_lines {A B} (f : B → A → out B) (g : A → list string) l :
  (∀ b x lines b', f b x = (lines, Ok b') → lines = g x) →
  ∀ b lines r, foldM_out f b l = (lines, Ok r) → lines = l ≫= g.
Proof.
  intros Hf. induction l as [|x l IH]; intros b lines r H.
  - by inversion H.
  - cbn [foldM_out] in H. rewrite bind_cons.
    destruct (f b x) as [lines1 [b'|e]] eqn:Hx; [|done].
    destruct (foldM_out f b' l) as [lines2 r2] eqn:Hl.
    inversion H; subst. by rewrite (Hf _ _ _ _ Hx), (IH _ _ _ Hl).
Qed.

Lemma diff_file_out_result w en_file en_keys st file :
  (diff_file_out w en_file en_keys st file).2
  = diff_file w en_file en_keys st file.
Proof.
  unfold diff_file_out, diff_file.
  destruct (bool_decide (file ≠ en_file)); [|done].
  destruct (load_keys w file) as [keys|[]]; try done.
  by destruct (bool_decide (diff_missing en_keys keys ≠ ∅)).
Qed.

Lemma diff_file_out_lines w en_file en_keys st file :
  (diff_file_out w en_file en_keys st file).1
  = locale_warning w en_file file.
Proof.
  unfold diff_file_out, locale_warning.
  destruct (bool_decide (file ≠ en_file)); [|done].
  destruct (load_keys w file) as [keys|[]]; try done.
  by destruct (bool_decide (diff_missing en_keys keys ≠ ∅)).
Qed.

Lemma scan_file_out_result w all_translations root st file :
  (scan_file_out w all_translations root st file).2
  = scan_file w all_translations root st file.
Proof.
  unfold scan_file_out, scan_file. destruct (is_template file); [|done].
  by destruct (read_text w (Py.path_join root file)) as [content|[]].
Qed.

Lemma scan_file_out_lines w all_translations root st file :
  (scan_file_out w all_translations root st file).1
  = template_warning w root file.
Proof.
  unfold scan_file_out, template_warning. destruct (is_template file); [|done].
  by destruct (read_text w (Py.path_join root file)) as [content|[]].
Qed.

Lemma scan_dir_out_result w all_translations st entry :
  (scan_dir_out w all_translations st entry).2
  = scan_dir w all_translations st entry.
Proof.
  destruct entry as [[root dirs] files]. unfold scan_dir_out, scan_dir.
  apply foldM_out_result. intros. apply scan_file_out_result.
Qed.

(** The run that prints returns what the run returns. *)
Lemma find_missing_translations_out_result w root_dir translation_files
    en_file :
  (find_missing_translations_out w root_dir translation_files en_file).2
  = find_missing_translations w root_dir translation_files en_file.
Proof.
  unfold find_missing_translations_out, find_missing_translations.
  destruct (load_keys w en_file) as [en_keys|[]]; try done.
  rewrite <-(foldM_out_result (diff_file_out w en_file en_keys))
    by (intros; apply diff_file_out_result).
  destruct (foldM_out (diff_file_out _ _ _) _ _) as [lines1 [part1|e]];
    [|done].
  simpl.
  destruct (foldM (add_translations _ _) _ _) as [all|e]; [|done]. simpl.
  rewrite <-(foldM_out_result (scan_dir_out w all))
    by (intros; apply scan_dir_out_result).
  by destruct (foldM_out (scan_dir_out _ _) _ _) as [lines3 [st|e]].
Qed.

Lemma run_Ok_all_ok w root_dir translation_files en_file en_keys r :
  load_keys w en_file = Ok en_keys →
  find_missing_translations w root_dir translation_files en_file = Ok r →
  Forall (λ file, file ≠ en_file → locale_ok w file = true)
         translation_files ∧
  Forall (entry_ok w) (os_walk w root_dir).
Proof.
  intros Hen H. apply run_inv in H as [[[?|?] _]|H]; [congruence..|].
  destruct H as (ek & part1 & all & st & Hek & H1 & H2 & H3 & _). split.
  - apply (foldM_Ok_Forall _ _ _
             (λ b x, diff_file_Ok_iff w en_file ek b x) (∅, 0)).
    by exists part1.
  - apply (foldM_Ok_Forall (scan_dir w all) _ _
             (λ b x, scan_dir_Ok_iff w all b x) init_state).
    by exists st.
Qed.

Lemma printed_lines w root_dir translation_files en_file en_keys lines r :
  load_keys w en_file = Ok en_keys →
  find_missing_translations_out w root_dir translation_files en_file
  = (lines, Ok r) →
  lines = (translation_files ≫= locale_warning w en_file)
          ++ (os_walk w root_dir ≫= entry_warnings w).
Proof.
  intros Hen H. unfold find_missing_translations_out in H. rewrite Hen in H.
  destruct (foldM_out (diff_file_out _ _ _) _ _)
    as [lines1 [part1|e]] eqn:H1; [|done].
  destruct (foldM (add_translations _ _) _ _) as [all|e]; [|done].
  destruct (foldM_out (scan_dir_out w all) init_state (os_walk w root_dir))
    as [lines3 [st|e]] eqn:H3; [|done].
  inversion H; subst. f_equal.
  - eapply foldM_out_lines; [|done]. intros b x o b' Hx.
    by rewrite <-(diff_file_out_lines w en_file en_keys b x), Hx.
  - eapply foldM_out_lines; [|done].
    intros b [[root dirs] files] o b' Hx. unfold scan_dir_out in Hx.
    unfold entry_warnings. simpl.
    eapply foldM_out_lines; [|done]. intros b1 x o1 b1' Hx1.
    by rewrite <-(scan_file_out_lines w all root b1 x), Hx1.
Qed.

(** X14: a run whose reference file loads and that returns a report has
    printed, in this order, one line for every listed entry other than the
    reference that is missing ([Translation file not found] with its path)
    or is not valid JSON ([Invalid JSON format in] with the path of the
    reference file), then one line for every template that does not
    decode; the second reading of the locale files prints nothing. *)
Theorem run_prints_one_line_per_skip w root_dir translation_files en_file
    en_keys lines r :
  load_keys w en_file = Ok en_keys →
  find_missing_translations_out w root_dir translation_files en_file
  = (lines, Ok r) →
  find_missing_translations w root_dir translation_files en_file = Ok r ∧
  lines = (translation_files ≫= locale_warning w en_file)
          ++ (os_walk w root_dir ≫= entry_warnings w).
Proof.
  intros Hen H. split; [|by eapply printed_lines].
  by rewrite <-find_missing_translations_out_result, H.
Qed.

Lemma run_prints_one_line_per_skip_demo :
  find_missing_translations Demo.world "src" Demo.files Demo.en
  = Ok Demo.report ∧
  ["Error: Translation file not found: i18n/fr.json"%string]
  = (Demo.files ≫= locale_warning Demo.world Demo.en)
    ++ (os_walk Demo.world "src" ≫= entry_warnings Demo.world).
Proof.
  apply (run_prints_one_line_per_skip Demo.world "src" Demo.files Demo.en
           Demo.en_keys).
  - reflexivity.
  - vm_compute. reflexivity.
Defined.

Lemma bind_nil_iff {A B} (g : A → list B) (l : list A) :
  l ≫= g = [] ↔ ∀ x, x ∈ l → g x = [].
Proof.
  induction l as [|y l IH].
  - split; [|done]. intros _ x Hx. by apply elem_of_nil in Hx.
  - rewrite bind_cons, app_nil, IH. split.
    + intros [Hy Hl] x [->|Hx]%elem_of_cons; auto.
    + intros Hall. split; [|intros x Hx]; apply Hall, elem_of_cons; auto.
Qed.

(** X15: such a run prints nothing exactly when every listed file other
    than the reference loads and every template of the walk is read. *)
Theorem run_is_silent_iff w root_dir translation_files en_file en_keys lines
    r :
  load_keys w en_file = Ok en_keys →
  find_missing_translations_out w root_dir translation_files en_file
  = (lines, Ok r) →
  lines = [] ↔
  (∀ file, file ∈ translation_files → file ≠ en_file →
           ∃ keys, load_keys w file = Ok keys) ∧
  (∀ root dirs files file,
     (root, dirs, files) ∈ os_walk w root_dir → file ∈ files →
     is_template file = true →
     ∃ content, read_text w (Py.path_join root file) = Ok content).
Proof.
  intros Hen H. rewrite (printed_lines _ _ _ _ _ _ _ Hen H).
  assert (Hrun : find_missing_translations w root_dir translation_files
                   en_file = Ok r)
    by (by rewrite <-find_missing_translations_out_result, H).
  destruct (run_Ok_all_ok _ _ _ _ _ _ Hen Hrun) as [Hloc Hwalk].
  rewrite Forall_forall in Hloc. rewrite Forall_forall in Hwalk.
  rewrite app_nil, !bind_nil_iff. split.
  - intros [H1 H2]. split.
    + intros file Hin Hne. specialize (H1 _ Hin). specialize (Hloc _ Hin Hne).
      unfold locale_warning in H1. unfold locale_ok in Hloc.
      rewrite (bool_decide_eq_true_2 _ Hne) in H1.
      destruct (load_keys w file) as [keys|[]]; try done. by exists keys.
    + intros root dirs files file Hin Hf Ht.
      specialize (H2 _ Hin). specialize (Hwalk _ Hin file Hf Ht).
      unfold entry_warnings in H2. simpl in *.
      rewrite bind_nil_iff in H2. specialize (H2 _ Hf).
      unfold template_warning in H2. unfold template_ok in Hwalk.
      rewrite Ht in H2.
      destruct (read_text w (Py.path_join root file)) as [c|[]]; try done.
      by exists c.
  - intros [H1 H2]. split.
    + intros file Hin. unfold locale_warning.
      destruct (bool_decide (file ≠ en_file)) eqn:Hne; [|done].
      apply bool_decide_eq_true in Hne.
      by destruct (H1 _ Hin Hne) as [keys ->].
    + intros [[root dirs] files] Hin. unfold entry_warnings. simpl.
      apply bind_nil_iff. intros file Hf. unfold template_warning.
      destruct (is_template file) eqn:Ht; [|done].
      by destruct (H2 _ _ _ _ Hin Hf Ht) as [c ->].
Qed.

Lemma run_is_silent_iff_demo :
  @nil string = [] ↔
  (∀ file, file ∈ [Demo.en; Demo.de] → file ≠ Demo.en →
           ∃ keys, load_keys Demo.world file = Ok keys) ∧
  (∀ root dirs files file,
     (root, dirs, files) ∈ os_walk Demo.world "src" → file ∈ files →
     is_template file = true →
     ∃ content, read_text Demo.world (Py.path_join root file) = Ok content).
Proof.
  apply (run_is_silent_iff Demo.world "src" [Demo.en; Demo.de] Demo.en
           Demo.en_keys []
           (Demo.report_of (Demo.run [Demo.en; Demo.de] Demo.en))).
  - reflexivity.
  - vm_compute. reflexivity.
Defined.

(** ** The script *)

Lemma print_report_last r :
  last (print_report r) = Some "Script completed successfully. Exit code: 0"%string.
Proof. unfold print_report. by rewrite !last_app. Qed.

(** X16: the script never raises, and its last line tells the outcome of
    the run: the success line exactly when the run returns a report,
    whatever it reports missing, and the failure line exactly when the run
    raises. *)
Theorem last_line_tells_outcome w str_exn :
  (last (main w str_exn)
   = Some "Script completed successfully. Exit code: 0"%string ↔
   ∃ r, find_missing_translations w root_directory translation_files_paths
          en_file_path = Ok r) ∧
  (last (main w str_exn) = Some "Script failed. Exit code: 1"%string ↔
   ∃ e, find_missing_translations w root_directory translation_files_paths
          en_file_path = Raise e).
Proof.
  rewrite <-find_missing_translations_out_result. unfold main.
  destruct (find_missing_translations_out _ _ _ _) as [lines [r|e]]; simpl.
  - rewrite last_app, print_report_last. split.
    + split; [eauto|done].
    + split; [done|]. by intros [e ?].
  - rewrite last_app. simpl. split.
    + split; [done|]. by intros [r ?].
    + split; [eauto|done].
Qed.

(** X17: when the reference file is missing or is not valid JSON, the
    script prints the error line of the run, then that nothing is missing
    in any of the three sections, three zero totals, and the success
    line. *)
Theorem missing_reference_reported_as_success w str_exn :
  json_load w en_file_path = Raise FileNotFoundError ∨
  json_load w en_file_path = Raise JSONDecodeError →
  ∃ line, main w str_exn = line :: nothing_missing_lines ∧
          (line = "Error: English translation file not found: "
                  ++ en_file_path ∨
           line = "Error: Invalid JSON format in: " ++ en_file_path)%string.
Proof.
  intros H. unfold main, find_missing_translations_out, load_keys.
  destruct H as [-> | ->]; simpl; eexists; split; eauto.
Qed.

Lemma missing_reference_reported_as_success_demo :
  ∃ line,
    main {| json_load _ := Raise FileNotFoundError;
            read_text _ := Raise OSError;
            os_walk _ := [] |} (λ _, ""%string)
    = line :: nothing_missing_lines ∧
    (line = "Error: English translation file not found: "
            ++ en_file_path ∨
     line = "Error: Invalid JSON format in: " ++ en_file_path)%string.
Proof.
  apply missing_reference_reported_as_success. left. reflexivity.
Defined.

(** X18: when the run returns a report with three empty mappings, the
    script prints what the run printed, then that nothing is missing in
    any of the three sections, three zero totals, and the success line. *)
Theorem nothing_missing_output w str_exn lines r :
  find_missing_translations_out w root_directory translation_files_paths
    en_file_path = (lines, Ok r) →
  missing_keys_en r = ∅ →
  missing_translations_html r = ∅ →
  missing_transloco_keys r = ∅ →
  main w str_exn = lines ++ nothing_missing_lines.
Proof.
  intros H H1 H2 H3.
  assert (Hrun : find_missing_translations w root_directory
                   translation_files_paths en_file_path = Ok r)
    by (by rewrite <-find_missing_translations_out_result, H).
  destruct (report_consistent _ _ _ _ _ Hrun) as [Hs Hp].
  destruct (report_diff_entries _ _ _ _ _ Hrun) as [_ Hk].
  rewrite H2, sum_lengths_empty in Hs. rewrite H3, sum_lengths_empty in Hp.
  assert (Hk0 : total_missing_keys_en r = 0).
  { rewrite Hk. apply sum_list_zero. intros file _. by rewrite H1. }
  unfold main. rewrite H. f_equal.
  unfold print_report, print_summary. rewrite H1, H2, H3, Hs, Hp, Hk0.
  reflexivity.
Qed.

Lemma nothing_missing_output_demo :
  main {| json_load _ := Ok (JObject []);
          read_text _ := Raise OSError;
          os_walk _ := [] |} (λ _, ""%string)
  = [] ++ nothing_missing_lines.
Proof.
  apply (nothing_missing_output _ _ [] empty_report); reflexivity.
Defined.
